(** * Emmet abbreviation actions

    A shallow embedding of [extensions/emmet/src/abbreviationActions.ts]:
    the abbreviation locator, the location validator and the multi-cursor
    expansion orchestrator, together with the properties the specification
    states about them.

    Strings are sequences of code units below 256 ([Ascii.ascii]); positions
    are pairs of natural numbers; what the module imports from the helper
    package, the expansion engine, [./util] and the editor is a type class
    per import, so that every property holds for all collaborators. *)

From Stdlib Require Import Ascii String Bool Arith Lia.
From stdpp Require Import base strings list gmap.

Open Scope string_scope.

(** ** Run-time values *)

(** The value of a [boolean]-typed expression at run time: [a && b] is [a]
    itself when [a] is [undefined]. *)
Inductive BoolOrUndefined : Type :=
| Bool (b : bool)
| Undefined.

Definition truthy (v : BoolOrUndefined) : bool :=
  match v with
  | Bool b => b
  | Undefined => false
  end.

(** A string used as a condition: the empty string is falsy. *)
Definition truthy_string (s : string) : bool :=
  negb (String.eqb s "").

(** An optional string used as a condition. *)
Definition truthy_opt (o : option string) : bool :=
  match o with
  | Some s => truthy_string s
  | None => false
  end.

(** ** String primitives *)

(** [\w] of a regular expression: [A-Za-z0-9_]. *)
Definition isWordChar (c : ascii) : bool :=
  let n := nat_of_ascii c in
  (((65 <=? n) && (n <=? 90)) || ((97 <=? n) && (n <=? 122))
   || ((48 <=? n) && (n <=? 57)) || (n =? 95))%nat.

(** [\s] of a regular expression, on code units below 256: tab, line feed,
    vertical tab, form feed, carriage return, space, no-break space. *)
Definition isSpaceChar (c : ascii) : bool :=
  let n := nat_of_ascii c in
  (((9 <=? n) && (n <=? 13)) || (n =? 32) || (n =? 160))%nat.

Fixpoint allChars (p : ascii -> bool) (s : string) : bool :=
  match s with
  | EmptyString => true
  | String c rest => p c && allChars p rest
  end.

(** The longest prefix of [s] whose characters satisfy [p], and what is left. *)
Fixpoint takeWhile (p : ascii -> bool) (s : string) : string :=
  match s with
  | EmptyString => EmptyString
  | String c rest => if p c then String c (takeWhile p rest) else EmptyString
  end.

Fixpoint dropWhile (p : ascii -> bool) (s : string) : string :=
  match s with
  | EmptyString => EmptyString
  | String c rest => if p c then dropWhile p rest else s
  end.

(** [s.substr(start)] and [s.substr(start, len)] for a start that is not
    negative. *)
Definition substr (s : string) (start : nat) (len : option nat) : string :=
  match len with
  | Some n => String.substring start n s
  | None => String.substring start (String.length s - start) s
  end.

(** [s.indexOf(c) === -1] for a single character [c]. *)
Fixpoint lacksChar (c : ascii) (s : string) : bool :=
  match s with
  | EmptyString => true
  | String d rest => negb (Ascii.eqb c d) && lacksChar c rest
  end.

(** [s.match(/<(\w+)$/)]: the first capture group of the leftmost match, or
    [None] when nothing matches.  At a start index the pattern matches when
    the character there is [<] and the rest of the string is a non-empty run
    of word characters. *)
Fixpoint match_unclosed_tag (s : string) : option string :=
  match s with
  | EmptyString => None
  | String c rest =>
      if Ascii.eqb c "<" && truthy_string rest && allChars isWordChar rest
      then Some rest
      else match_unclosed_tag rest
  end.

(** [s.match(re)] for the pattern [re] made of a start anchor and a capture
    group of any number of white-space characters: the first capture group.
    This pattern matches every string. *)
Definition match_leading_space (s : string) : option string :=
  Some (takeWhile isSpaceChar s).

(** The literal the wrap text carries for the selected text. *)
Definition TM_SELECTED_TEXT : string := "$TM_SELECTED_TEXT".

Fixpoint stripPrefix (p s : string) : option string :=
  match p, s with
  | EmptyString, _ => Some s
  | String a p', String b s' => if Ascii.eqb a b then stripPrefix p' s' else None
  | String _ _, EmptyString => None
  end.

(** A match of [/\s*\$TM_SELECTED_TEXT\s*/] that starts at the head of [s]:
    what follows the match. *)
Definition match_selected_text_here (s : string) : option string :=
  match stripPrefix TM_SELECTED_TEXT (dropWhile isSpaceChar s) with
  | Some rest => Some (dropWhile isSpaceChar rest)
  | None => None
  end.

(** [s.replace(/\s*\$TM_SELECTED_TEXT\s*/, '\$TM_SELECTED_TEXT')]: the
    leftmost match is replaced, the rest of the string is kept. *)
Fixpoint replace_selected_text (s : string) : string :=
  match match_selected_text_here s with
  | Some rest => TM_SELECTED_TEXT +:+ rest
  | None =>
      match s with
      | EmptyString => EmptyString
      | String c rest => String c (replace_selected_text rest)
      end
  end.

(** [s.trim()] is empty: every character of [s] is white space. *)
Definition trim_is_empty (s : string) : bool := allChars isSpaceChar s.

(** ** Editor types *)

(** Modelled from the spec: [vscode.Position] is declared outside this file.
    A position is a (line, column) pair; the comparisons are lexicographic
    and [translate] raises when a coordinate would become negative. *)
Module Position.

Record t : Type := mk { line : nat; character : nat }.

Definition isBefore (a b : t) : bool :=
  ((line a <? line b) || ((line a =? line b) && (character a <? character b)))%nat.

Definition isBeforeOrEqual (a b : t) : bool :=
  ((line a <? line b) || ((line a =? line b) && (character a <=? character b)))%nat.

Definition isAfter (a b : t) : bool := negb (isBeforeOrEqual a b).

Definition isEqual (a b : t) : bool :=
  ((line a =? line b) && (character a =? character b))%nat.

(** [p.translate(0, -n)]. *)
Definition translate_back (p : t) (n : nat) : option t :=
  if (n <=? character p)%nat then Some (mk (line p) (character p - n)) else None.

End Position.

(** Modelled from the spec: [vscode.Range] is declared outside this file.
    A range is a pair of positions with start <= end, which its constructor
    establishes by swapping its arguments when the first is not before the
    second; it is empty when start equals end, and [contains] includes both
    ends. *)
Module Range.

Record t : Type := mk { start : Position.t; end_ : Position.t }.

(** [new vscode.Range(a, b)]. *)
Definition new (a b : Position.t) : t :=
  if Position.isBefore a b then mk a b else mk b a.

(** [new vscode.Range(startLine, startCharacter, endLine, endCharacter)]. *)
Definition new4 (sl sc el ec : nat) : t :=
  new (Position.mk sl sc) (Position.mk el ec).

Definition isEmpty (r : t) : bool := Position.isEqual (start r) (end_ r).

Definition isSingleLine (r : t) : bool :=
  (Position.line (start r) =? Position.line (end_ r))%nat.

Definition contains (r : t) (p : Position.t) : bool :=
  negb (Position.isBefore p (start r)) && negb (Position.isBefore (end_ r) p).

End Range.

(** Modelled from the spec: [vscode.Selection] is declared outside this file.
    A selection is a range with an anchor and an active end, reversed when
    the active end is before the anchor. *)
Module Selection.

Record t : Type := mk { anchor : Position.t; active : Position.t }.

Definition isReversed (s : t) : bool := Position.isBefore (active s) (anchor s).

(** The selection seen as the range it extends. *)
Definition range (s : t) : Range.t := Range.new (anchor s) (active s).

Definition isEmpty (s : t) : bool := Range.isEmpty (range s).

End Selection.

(** Modelled from the spec: [vscode.TextDocument] is declared outside this
    file.  A document is its lines and its line separator; [lineAt] raises
    outside the document; [getText] is the literal text of a range that lies
    inside the document. *)
Module TextDocument.

Record t : Type := mk { languageId : string; lines : list string; eol : string }.

(** [doc.lineAt(n).text], [None] when the call raises. *)
Definition lineAt (doc : t) (n : nat) : option string := lines doc !! n.

Definition lineOrEmpty (doc : t) (n : nat) : string :=
  default EmptyString (lines doc !! n).

Fixpoint joinLines (sep : string) (ls : list string) : string :=
  match ls with
  | [] => EmptyString
  | [l] => l
  | l :: rest => l +:+ sep +:+ joinLines sep rest
  end.

Definition getText (doc : t) (r : Range.t) : string :=
  let s := Range.start r in
  let e := Range.end_ r in
  if Range.isEmpty r then EmptyString
  else if Range.isSingleLine r then
    String.substring (Position.character s)
      (Position.character e - Position.character s)
      (lineOrEmpty doc (Position.line s))
  else
    let first := substr (lineOrEmpty doc (Position.line s)) (Position.character s) None in
    let middle :=
      take (Position.line e - Position.line s - 1)
           (drop (S (Position.line s)) (lines doc)) in
    let last := substr (lineOrEmpty doc (Position.line e)) 0 (Some (Position.character e)) in
    joinLines (eol doc) (first :: middle ++ [last]).

End TextDocument.

(** ** Parsed nodes *)

(** The part of the [EmmetNode] declarations this file reads: a token has a
    start and an end position; a node has a type, a parent, and, by kind, a
    selector token (rules) or a closing tag (elements). *)
Module EmmetNode.

Record Token : Type := mkToken { start : Position.t; end_ : Position.t }.

#[local] Unset Elimination Schemes.

Inductive Node : Type := mkNode {
    type : string;
    parent : option Node;
    selectorToken : option Token;
    close : option Token
  }.

#[local] Set Elimination Schemes.

End EmmetNode.

Import EmmetNode (Node, Token).

(** ** Collaborators *)

(** Values this file hands on without looking inside: the configuration
    values of the [emmet] section and the fields of the expand options other
    than the profile. *)
Class Foreign : Type := {
  ConfigValue : Type;
  OtherOptions : Type
}.

Inductive JsValue : Type :=
| JsNumber (n : Z)
| JsString (s : string)
| JsBoolean (b : bool).

(** The object [getExpandOptions] returns: its [profile] is a map that
    [expandAbbr] writes to. *)
Record ExpandOptions `{Foreign} : Type := mkExpandOptions {
  profile : gmap string JsValue;
  others : OtherOptions
}.

Arguments mkExpandOptions {_} profile others.

(** What this file imports from [vscode-emmet-helper]. *)
Class EmmetHelper `{Foreign} : Type := {
  getExpandOptions : ConfigValue -> ConfigValue -> string -> option string -> ExpandOptions;
  extractAbbreviation : TextDocument.t -> Position.t -> Range.t * string;
  isStyleSheet : string -> bool;
  isAbbreviationValid : string -> string -> bool;
  getEmmetMode : option string -> list string -> option string
}.

(** [expand] of [@emmetio/expand-abbreviation]; [None] when it raises. *)
Class Engine `{Foreign} : Type := {
  expand : string -> ExpandOptions -> option string
}.

(** The state of a text editor: its document and its selections. *)
Module TextEditor.

Record t : Type := mk { document : TextDocument.t; selections : list Selection.t }.

End TextEditor.

(** What this file imports from [./util].  The notices these functions show
    are theirs and are not recorded here. *)
Class Util : Type := {
  getNode : Node -> Position.t -> option Node;
  getInnerRange : Node -> Range.t;
  getMappingForIncludedLanguages : gmap string string;
  parseDocument : TextDocument.t -> option Node;
  validate : option TextEditor.t -> bool
}.

(** Where [editor.insertSnippet] puts a snippet: one range or several. *)
Inductive Location : Type :=
| OneRange (r : Range.t)
| Ranges (rs : list Range.t).

(** The [emmet] configuration section, as far as this file reads it. *)
Record EmmetConfig `{Foreign} : Type := mkEmmetConfig {
  syntaxProfiles : ConfigValue;
  variables : ConfigValue;
  exlcudeLanguages : option (list string)
}.

Arguments mkEmmetConfig {_} syntaxProfiles variables exlcudeLanguages.

(** The editor platform: the configuration, the answer to the input box
    ([None] when it is dismissed), and what inserting a snippet does to an
    editor together with the value the returned promise resolves to. *)
Class Vscode `{Foreign} : Type := {
  emmetConfig : EmmetConfig;
  inputBoxAnswer : string -> option string;
  applySnippet : TextEditor.t -> string -> Location -> TextEditor.t * bool
}.

(** ** The location validator *)

Section Validator.

Context `{EmmetHelper} `{Util}.

(** Lines 135 to 138: the workaround for selectors of nested rules that span
    lines. *)
Definition nested_multiline_selector (currentCssNode : Node) : bool :=
  match EmmetNode.parent currentCssNode with
  | Some parent =>
      String.eqb (EmmetNode.type parent) "rule"
      && match EmmetNode.selectorToken currentCssNode with
         | Some tok =>
             negb (Position.line (EmmetNode.start tok)
                   =? Position.line (EmmetNode.end_ tok))%nat
         | None => false
         end
  | None => false
  end.

Definition isValidLocationForEmmetAbbreviation
    (currentNode : option Node) (syntax : string) (position : Position.t)
    : BoolOrUndefined :=
  match currentNode with
  | None => Bool (negb (isStyleSheet syntax))
  | Some currentNode =>
      if isStyleSheet syntax then
        if negb (String.eqb (EmmetNode.type currentNode) "rule") then Bool true
        else
          let currentCssNode := currentNode in
          if nested_multiline_selector currentCssNode then Bool true
          else
            match EmmetNode.selectorToken currentCssNode with
            | Some tok => Bool (Position.isAfter position (EmmetNode.end_ tok))
            | None => Undefined
            end
      else
        let currentHtmlNode := currentNode in
        match EmmetNode.close currentHtmlNode with
        | Some _ => Bool (Range.contains (getInnerRange currentHtmlNode) position)
        | None => Bool false
        end
  end.

End Validator.

(** ** The abbreviation locator *)

Section Locator.

Context `{EmmetHelper}.

(** The closure [getAbbreviation] of [expandAbbreviation]; [editor] is the
    editor the closure captures.  [None] when a call inside raises. *)
Definition getAbbreviation (editor : TextEditor.t)
    (document : TextDocument.t) (selection : Selection.t)
    (position : Position.t) (isHtml : bool) : option (Range.t * string) :=
  let rangeToReplace := Selection.range selection in
  let abbreviation := TextDocument.getText document rangeToReplace in
  if negb (Range.isEmpty rangeToReplace) then Some (rangeToReplace, abbreviation)
  else
    let fallback := Some (extractAbbreviation (TextEditor.document editor) position) in
    if isHtml then
      match TextDocument.lineAt (TextEditor.document editor) (Position.line position) with
      | None => None
      | Some currentLine =>
          let textTillPosition := substr currentLine 0 (Some (Position.character position)) in
          match match_unclosed_tag textTillPosition with
          | Some abbreviation =>
              match Position.translate_back position (String.length abbreviation + 1) with
              | None => None
              | Some from => Some (Range.new from position, abbreviation)
              end
          | None => fallback
          end
      end
    else fallback.

End Locator.

(** ** Effects *)

(** A promise, by the value it resolves to. *)
Inductive Thenable (A : Type) : Type :=
| Resolves (a : A).

Arguments Resolves {A} a.

(** What a command does that can be seen from outside, in order. *)
Inductive Event `{Foreign} : Type :=
| ExpandCall (abbreviation : string) (options : ExpandOptions)
| ShowErrorMessage (message : string)
| ShowInformationMessage (message : string)
| ShowInputBox (prompt : string)
| InsertSnippet (snippet : string) (location : Location).

(** The state the commands run in: [vscode.window.activeTextEditor], when
    there is one, and the events so far. *)
Record World `{Foreign} : Type := mkWorld {
  activeTextEditor : option TextEditor.t;
  events : list Event
}.

Arguments mkWorld {_} activeTextEditor events.

(** A computation: from a world, a value ([None] when an exception leaves the
    computation) and the world after it. *)
Definition M `{Foreign} (A : Type) : Type := World -> option A * World.

Definition ret `{Foreign} {A : Type} (a : A) : M A := fun w => (Some a, w).

Definition bind `{Foreign} {A B : Type} (m : M A) (k : A -> M B) : M B :=
  fun w =>
    match m w with
    | (Some a, w') => k a w'
    | (None, w') => (None, w')
    end.

Definition raise `{Foreign} {A : Type} : M A := fun w => (None, w).

Definition emit `{Foreign} (e : Event) : M unit :=
  fun w => (Some tt, mkWorld (activeTextEditor w) (events w ++ [e])).

Definition getActiveTextEditor `{Foreign} : M (option TextEditor.t) :=
  fun w => (Some (activeTextEditor w), w).

Declare Scope action_scope.
Delimit Scope action_scope with action.

Notation "x <- m ;; k" := (bind m (fun x => k))
  (at level 100, m at next level, right associativity) : action_scope.
Notation "m ;; k" := (bind m (fun _ => k))
  (at level 100, right associativity) : action_scope.

Open Scope action_scope.

(** [forEach] over an array, with the variables the callback assigns to
    threaded through as [acc]. *)
Fixpoint forEach `{Foreign} {A S : Type} (l : list A) (f : A -> S -> M S) (acc : S) : M S :=
  match l with
  | [] => ret acc
  | x :: rest => acc' <- f x acc ;; forEach rest f acc'
  end.

(** ** The expansion requests *)

Module ExpandAbbreviationInput.

Record t : Type := mk {
  syntax : string;
  abbreviation : string;
  rangeToReplace : Range.t;
  textToWrap : option string
}.

End ExpandAbbreviationInput.

Import ExpandAbbreviationInput (syntax, abbreviation, rangeToReplace, textToWrap).

(** The wrap text of [wrapWithAbbreviation]: a line feed, a tab, the
    placeholder of the selected text, a line feed. *)
Definition wrapText : string :=
  String "010" (String "009" (TM_SELECTED_TEXT +:+ String "010" EmptyString)).

Section Orchestrator.

Context `{Engine} `{!EmmetHelper} `{!Util} `{!Vscode}.

(** [vscode.window.showErrorMessage]. *)
Definition showErrorMessage (message : string) : M unit :=
  emit (ShowErrorMessage message).

(** [vscode.window.showInformationMessage]. *)
Definition showInformationMessage (message : string) : M unit :=
  emit (ShowInformationMessage message).

(** [vscode.window.showInputBox]: the promise of the user's answer. *)
Definition showInputBox (prompt : string) : M (Thenable (option string)) :=
  emit (ShowInputBox prompt) ;; ret (Resolves (inputBoxAnswer prompt)).

(** [editor.insertSnippet(new vscode.SnippetString(snippet), location)] on
    the active editor: the edit is recorded and applied when it is issued. *)
Definition insertSnippet (snippet : string) (location : Location) : M (Thenable bool) :=
  fun w =>
    match activeTextEditor w with
    | None => (None, w)
    | Some editor =>
        let '(editor', applied) := applySnippet editor snippet location in
        (Some (Resolves applied),
         mkWorld (Some editor') (events w ++ [InsertSnippet snippet location]))
    end.

(** [expandOptions.profile[key] = value]. *)
Definition set_profile (o : ExpandOptions) (key : string) (value : JsValue) : ExpandOptions :=
  mkExpandOptions (<[key := value]> (profile o)) (others o).

(** The call of the engine inside the [try] block: [None] when it raises. *)
Definition callExpand (a : string) (o : ExpandOptions) : M (option string) :=
  emit (ExpandCall a o) ;; ret (expand a o).

(** Lines 196 to 204 of [expandAbbr]: the options the engine is called
    with. *)
Definition expandOptionsOf (input : ExpandAbbreviationInput.t) : ExpandOptions :=
  let expandOptions :=
    getExpandOptions (syntaxProfiles emmetConfig) (variables emmetConfig)
                     (syntax input) (textToWrap input) in
  if truthy_opt (textToWrap input) && negb (Range.isSingleLine (rangeToReplace input))
  then set_profile expandOptions "inlineBreak" (JsNumber 1)
  else expandOptions.

(** Lines 211 to 213 of [expandAbbr]: a wrapping expansion that holds no
    line feed loses the white space around the placeholder of the selected
    text. *)
Definition singleLineWrap (input : ExpandAbbreviationInput.t) (expandedText : string)
    : string :=
  if truthy_opt (textToWrap input) && lacksChar "010" expandedText
  then replace_selected_text expandedText
  else expandedText.

(** Expands abbreviation as detailed in given input; [None] is [undefined]. *)
Definition expandAbbr (input : ExpandAbbreviationInput.t) : M (option string) :=
  let expandOptions := expandOptionsOf input in
  outcome <- callExpand (abbreviation input) expandOptions ;;
  match outcome with
  | Some expandedText => ret (Some (singleLineWrap input expandedText))
  | None => showErrorMessage "Failed to expand abbreviation" ;; ret None
  end.

(** The value [expandAbbr] returns for a request. *)
Definition expansionOf (input : ExpandAbbreviationInput.t) : option string :=
  match expand (abbreviation input) (expandOptionsOf input) with
  | Some expandedText => Some (singleLineWrap input expandedText)
  | None => None
  end.

(** The events of one run of [expandAbbr]: the call of the engine, then the
    error notice when the engine raised. *)
Definition expandAbbrEvents (input : ExpandAbbreviationInput.t) : list Event :=
  ExpandCall (abbreviation input) (expandOptionsOf input)
  :: match expansionOf input with
     | Some _ => []
     | None => [ShowErrorMessage "Failed to expand abbreviation"]
     end.

(** The insertion the path where the snippets differ makes for a request:
    none when the expansion is no value or an empty text. *)
Definition insertionOf (input : ExpandAbbreviationInput.t) : option (string * Location) :=
  match expansionOf input with
  | Some text =>
      if truthy_string text then Some (text, OneRange (rangeToReplace input)) else None
  | None => None
  end.

(** The callback of the [forEach] of the path where the snippets differ. *)
Definition insertOne (expandAbbrInput : ExpandAbbreviationInput.t)
    (insertPromises : list (Thenable bool)) : M (list (Thenable bool)) :=
  expandedText <- expandAbbr expandAbbrInput ;;
  if truthy_opt expandedText then
    p <- insertSnippet (default EmptyString expandedText)
                       (OneRange (rangeToReplace expandAbbrInput)) ;;
    ret (insertPromises ++ [p])%list
  else ret insertPromises.

(** Lines 184 to 186 of [expandAbbreviationInRange]: a new range from the
    coordinates of the range of every request. *)
Definition copiedRanges (expandAbbrList : list ExpandAbbreviationInput.t)
    : list Range.t :=
  map (fun value =>
         Range.new4
           (Position.line (Range.start (rangeToReplace value)))
           (Position.character (Range.start (rangeToReplace value)))
           (Position.line (Range.end_ (rangeToReplace value)))
           (Position.character (Range.end_ (rangeToReplace value))))
      expandAbbrList.

(** Expands abbreviations as detailed in expandAbbrList in the editor.  The
    editor is the active one.  The result is [None] when the function
    returns no value, and the promise it returns otherwise. *)
Definition expandAbbreviationInRange (expandAbbrList : list ExpandAbbreviationInput.t)
    (insertSameSnippet : bool) : M (option (Thenable bool)) :=
  match expandAbbrList with
  | [] => ret None
  | anyExpandAbbrInput :: _ =>
      if negb insertSameSnippet then
        insertPromises <- forEach expandAbbrList insertOne [] ;;
        ret (Some (Resolves true))
      else
        expandedText <- expandAbbr anyExpandAbbrInput ;;
        let allRanges := copiedRanges expandAbbrList in
        if truthy_opt expandedText then
          p <- insertSnippet (default EmptyString expandedText) (Ranges allRanges) ;;
          ret (Some p)
        else ret None
  end.

End Orchestrator.

(** ** The commands *)

(** The argument object of a command, as far as the commands read it.  An
    argument that is not an object reads as no argument. *)
Module Args.

Record t : Type := mk {
  language : option string;
  parentMode : option string;
  abbreviation : option string
}.

End Args.

(** The variables the [forEach] of [expandAbbreviation] assigns to. *)
Record Collected : Type := mkCollected {
  abbreviationList : list ExpandAbbreviationInput.t;
  firstAbbreviation : option string;
  allAbbreviationsSame : bool
}.

(** What the flag of [expandAbbreviation] records while requests are
    collected: before the first request nothing is known and the flag is
    set; afterwards [firstAbbreviation] is the abbreviation of the first
    request, and the flag is set exactly when every request has it. *)
Definition flagInvariant (c : Collected) : Prop :=
  match firstAbbreviation c with
  | None => abbreviationList c = [] /\ allAbbreviationsSame c = true
  | Some a =>
      a <> EmptyString
      /\ (exists first rest,
            abbreviationList c = first :: rest /\ abbreviation first = a)
      /\ (allAbbreviationsSame c = true
          <-> Forall (fun input => abbreviation input = a) (abbreviationList c))
  end.

Section Commands.

Context `{Engine} `{!EmmetHelper} `{!Util} `{!Vscode}.

(** [mappedModes[key] ? mappedModes[key] : key]; an undefined key reads the
    property named undefined. *)
Definition mappedOrSelf (mappedModes : gmap string string) (key : option string)
    : option string :=
  match mappedModes !! default "undefined" key with
  | Some mode => if truthy_string mode then Some mode else key
  | None => key
  end.

Definition getSyntaxFromArgs (args : option Args.t) : M (option string) :=
  editor <- getActiveTextEditor ;;
  match editor with
  | None => showInformationMessage "No editor is active." ;; ret None
  | Some editor =>
      let mappedModes := getMappingForIncludedLanguages in
      let language : string :=
        match args with
        | Some a =>
            if truthy_opt (Args.language a)
            then default EmptyString (Args.language a)
            else TextDocument.languageId (TextEditor.document editor)
        | None => TextDocument.languageId (TextEditor.document editor)
        end in
      let parentMode : option string :=
        match args with
        | Some a => Args.parentMode a
        | None => None
        end in
      let excludedLanguages := default [] (exlcudeLanguages emmetConfig) in
      let syntax := getEmmetMode (mappedOrSelf mappedModes (Some language)) excludedLanguages in
      if truthy_opt syntax then ret syntax
      else ret (getEmmetMode (mappedOrSelf mappedModes parentMode) excludedLanguages)
  end.

(** The callback of the [forEach] of [wrapWithAbbreviation], for one
    selection: the request it pushes, [None] when a call inside raises. *)
Definition wrapInput (editor : TextEditor.t) (syntax abbreviation : string)
    (selection : Selection.t) : option ExpandAbbreviationInput.t :=
  let document := TextEditor.document editor in
  let rangeToReplace :=
    if Selection.isReversed selection
    then Range.new (Selection.active selection) (Selection.anchor selection)
    else Selection.range selection in
  let widened :=
    if Range.isEmpty rangeToReplace then
      let l := Position.line (Range.start rangeToReplace) in
      match TextDocument.lineAt document l with
      | Some text => Some (Range.new4 l 0 l (String.length text))
      | None => None
      end
    else Some rangeToReplace in
  match widened with
  | None => None
  | Some rangeToReplace =>
      match TextDocument.lineAt document (Position.line (Range.start rangeToReplace)) with
      | None => None
      | Some text =>
          let firstLineOfSelection :=
            substr text (Position.character (Range.start rangeToReplace)) None in
          let matches := match_leading_space firstLineOfSelection in
          let preceedingWhiteSpace :=
            match matches with
            | Some group => String.length group
            | None => 0
            end in
          let rangeToReplace :=
            Range.new4
              (Position.line (Range.start rangeToReplace))
              (Position.character (Range.start rangeToReplace) + preceedingWhiteSpace)
              (Position.line (Range.end_ rangeToReplace))
              (Position.character (Range.end_ rangeToReplace)) in
          Some (ExpandAbbreviationInput.mk syntax abbreviation rangeToReplace (Some wrapText))
      end
  end.

(** [forEach] with a callback that only pushes to [expandAbbrList]. *)
Fixpoint wrapInputs (editor : TextEditor.t) (syntax abbreviation : string)
    (selections : list Selection.t) : option (list ExpandAbbreviationInput.t) :=
  match selections with
  | [] => Some []
  | selection :: rest =>
      match wrapInput editor syntax abbreviation selection with
      | None => None
      | Some input =>
          match wrapInputs editor syntax abbreviation rest with
          | None => None
          | Some inputs => Some (input :: inputs)
          end
      end
  end.

(** A promise that resolves with what [then]'s callback returns: a returned
    promise is followed, no returned value resolves to [None]. *)
Definition followed (r : option (Thenable bool)) : Thenable (option bool) :=
  match r with
  | Some (Resolves b) => Resolves (Some b)
  | None => Resolves None
  end.

(** The result is [None] when the command returns no value; an exception
    inside the callback of [then] leaves the computation like any other. *)
Definition wrapWithAbbreviation (args : option Args.t)
    : M (option (Thenable (option bool))) :=
  syntax <- getSyntaxFromArgs args ;;
  editor <- getActiveTextEditor ;;
  if negb (truthy_opt syntax) || negb (validate editor) then ret None
  else
    let syntax := default EmptyString syntax in
    abbreviationPromise <-
      match args with
      | Some a =>
          if truthy_opt (Args.abbreviation a)
          then ret (Resolves (Args.abbreviation a))
          else showInputBox "Enter Abbreviation"
      | None => showInputBox "Enter Abbreviation"
      end ;;
    let '(Resolves answer) := abbreviationPromise in
    let abbreviation := default EmptyString answer in
    if negb (truthy_string abbreviation) || trim_is_empty abbreviation
       || negb (isAbbreviationValid syntax abbreviation)
    then ret (Some (Resolves None))
    else
      current <- getActiveTextEditor ;;
      match current with
      | None => raise
      | Some current =>
          match wrapInputs current syntax abbreviation (TextEditor.selections current) with
          | None => raise
          | Some expandAbbrList =>
              r <- expandAbbreviationInRange expandAbbrList true ;;
              ret (Some (followed r))
          end
      end.

(** The callback of the [forEach] of [expandAbbreviation], for one
    selection. *)
Definition collectAbbreviation (editor : TextEditor.t) (rootNode : Node)
    (syntax : string) (selection : Selection.t) (c : Collected) : M Collected :=
  let position :=
    if Selection.isReversed selection
    then Selection.anchor selection
    else Selection.active selection in
  match getAbbreviation editor (TextEditor.document editor) selection position
                        (String.eqb syntax "html") with
  | None => raise
  | Some (rangeToReplace, abbreviation) =>
      if negb (isAbbreviationValid syntax abbreviation) then
        showErrorMessage "Emmet: Invalid abbreviation" ;; ret c
      else
        let currentNode := getNode rootNode position in
        if negb (truthy (isValidLocationForEmmetAbbreviation currentNode syntax position))
        then ret c
        else
          let first :=
            if negb (truthy_opt (firstAbbreviation c)) then Some abbreviation
            else firstAbbreviation c in
          let same :=
            if negb (truthy_opt (firstAbbreviation c)) then allAbbreviationsSame c
            else if allAbbreviationsSame c
                    && negb (String.eqb (default EmptyString (firstAbbreviation c)) abbreviation)
                 then false
                 else allAbbreviationsSame c in
          ret (mkCollected
                 (abbreviationList c
                    ++ [ExpandAbbreviationInput.mk syntax abbreviation rangeToReplace None])%list
                 first same)
  end.

Definition expandAbbreviation (args : option Args.t) : M (option (Thenable bool)) :=
  syntax <- getSyntaxFromArgs args ;;
  editor <- getActiveTextEditor ;;
  if negb (truthy_opt syntax) || negb (validate editor) then ret None
  else
    let syntax := default EmptyString syntax in
    match editor with
    | None => raise
    | Some editor =>
        match parseDocument (TextEditor.document editor) with
        | None => ret None
        | Some rootNode =>
            c <- forEach (TextEditor.selections editor)
                         (collectAbbreviation editor rootNode syntax)
                         (mkCollected [] None true) ;;
            expandAbbreviationInRange (abbreviationList c) (allAbbreviationsSame c)
        end
    end.

End Commands.

(** ** Reading the event log *)

(** The calls of the expansion engine in a log, in order. *)
Definition expandCalls `{Foreign} (l : list Event) : list (string * ExpandOptions) :=
  omap (fun e => match e with
                 | ExpandCall a o => Some (a, o)
                 | _ => None
                 end) l.

(** The snippet insertions in a log, in order. *)
Definition insertions `{Foreign} (l : list Event) : list (string * Location) :=
  omap (fun e => match e with
                 | InsertSnippet s loc => Some (s, loc)
                 | _ => None
                 end) l.

(** The error notices in a log, in order. *)
Definition errorMessages `{Foreign} (l : list Event) : list string :=
  omap (fun e => match e with
                 | ShowErrorMessage m => Some m
                 | _ => None
                 end) l.

(** A range as its constructor leaves it: the end is not before the start. *)
Definition wellFormed (r : Range.t) : Prop :=
  Position.isBefore (Range.end_ r) (Range.start r) = false.

(** ** Concrete collaborators

    Instances of the collaborators on which the model runs. *)
Module Sample.

Definition foreign : Foreign := {| ConfigValue := unit; OtherOptions := unit |}.

(** The stylesheet syntaxes are those the documentation of the validator
    names; an abbreviation is valid when it is not empty. *)
Definition helper : @EmmetHelper foreign := {|
  getExpandOptions := fun _ _ _ _ => @mkExpandOptions foreign ∅ tt;
  extractAbbreviation := fun _ p => (Range.new p p, EmptyString);
  isStyleSheet := fun s => String.eqb s "css" || String.eqb s "less" || String.eqb s "scss";
  isAbbreviationValid := fun _ a => truthy_string a;
  getEmmetMode := fun l _ => l
|}.

(** An engine that expands a name to a pair of tags. *)
Definition engine : @Engine foreign := {|
  expand := fun a _ => Some ("<" +:+ a +:+ "></" +:+ a +:+ ">")
|}.

(** An engine that raises on every abbreviation. *)
Definition failingEngine : @Engine foreign := {|
  expand := fun _ _ => None
|}.

Definition util : Util := {|
  getNode := fun _ _ => None;
  getInnerRange := fun n =>
    match EmmetNode.close n with
    | Some c => Range.new (Position.mk 0 5) (EmmetNode.start c)
    | None => Range.new (Position.mk 0 0) (Position.mk 0 0)
    end;
  getMappingForIncludedLanguages := ∅;
  parseDocument := fun _ => Some (EmmetNode.mkNode "root" None None None);
  validate := fun e => bool_decide (is_Some e)
|}.

(** Inserting a snippet replaces the text of the document by the snippet and
    reports success. *)
Definition vscode : @Vscode foreign := {|
  emmetConfig := @mkEmmetConfig foreign tt tt None;
  inputBoxAnswer := fun _ => None;
  applySnippet := fun e s _ =>
    (TextEditor.mk
       (TextDocument.mk (TextDocument.languageId (TextEditor.document e)) [s]
                        (TextDocument.eol (TextEditor.document e)))
       (TextEditor.selections e), true)
|}.

Definition pos (l c : nat) : Position.t := Position.mk l c.

Definition cursor (l c : nat) : Selection.t := Selection.mk (pos l c) (pos l c).

Definition document (text : list string) : TextDocument.t :=
  TextDocument.mk "html" text (String "010" EmptyString).

Definition editor (text : list string) (selections : list Selection.t) : TextEditor.t :=
  TextEditor.mk (document text) selections.

Definition world (text : list string) (selections : list Selection.t) : @World foreign :=
  mkWorld (Some (editor text selections)) [].

(** A request for the abbreviation [a] over columns [c1] to [c2] of line
    [l]. *)
Definition request (a : string) (l c1 c2 : nat) : ExpandAbbreviationInput.t :=
  ExpandAbbreviationInput.mk "html" a (Range.new4 l c1 l c2) None.

(** A rule whose selector runs from [(l1, c1)] to [(l2, c2)]. *)
Definition rule (parent : option Node) (l1 c1 l2 c2 : nat) : Node :=
  EmmetNode.mkNode "rule" parent
    (Some (EmmetNode.mkToken (pos l1 c1) (pos l2 c2))) None.

(** An element whose closing tag runs from [(l, c1)] to [(l, c2)]. *)
Definition element (l c1 c2 : nat) : Node :=
  EmmetNode.mkNode "div" None None
    (Some (EmmetNode.mkToken (pos l c1) (pos l c2))).

(** An element without a closing tag. *)
Definition unclosed : Node := EmmetNode.mkNode "img" None None None.

End Sample.

(** ** Further readings of a run *)

(** The prompts of the input boxes in a log, in order. *)
Definition inputBoxes `{Foreign} (l : list Event) : list string :=
  omap (fun e => match e with
                 | ShowInputBox prompt => Some prompt
                 | _ => None
                 end) l.

(** The number of selections of the active editor, none without one. *)
Definition selectionCount `{Foreign} (w : World) : nat :=
  match activeTextEditor w with
  | Some editor => length (TextEditor.selections editor)
  | None => 0
  end.

(** The abbreviation a command finds in its arguments. *)
Definition argumentAbbreviation (args : option Args.t) : option string :=
  match args with
  | Some a => Args.abbreviation a
  | None => None
  end.

(** The language [getSyntaxFromArgs] resolves first: the one of the
    arguments when there is one that is not empty, the one of the document
    otherwise. *)
Definition requestedLanguage (args : option Args.t) (editor : TextEditor.t) : string :=
  match args with
  | Some a =>
      if truthy_opt (Args.language a)
      then default EmptyString (Args.language a)
      else TextDocument.languageId (TextEditor.document editor)
  | None => TextDocument.languageId (TextEditor.document editor)
  end.

(** The later of the two ends of a selection. *)
Definition laterEnd (selection : Selection.t) : Position.t :=
  Range.end_ (Selection.range selection).

Section Readings.

Context `{EmmetHelper} `{!Util}.

(** A request that [expandAbbreviation] may collect from one of
    [selections]: it carries the syntax and no wrap text, its abbreviation is
    valid, and its range and abbreviation are what the locator finds at the
    later end of a selection that is a valid location. *)
Definition collectedFrom (editor : TextEditor.t) (rootNode : Node) (syntax : string)
    (selections : list Selection.t) (input : ExpandAbbreviationInput.t) : Prop :=
  ExpandAbbreviationInput.syntax input = syntax
  /\ textToWrap input = None
  /\ isAbbreviationValid syntax (ExpandAbbreviationInput.abbreviation input) = true
  /\ exists selection,
       selection ∈ selections
       /\ truthy (isValidLocationForEmmetAbbreviation
                    (getNode rootNode (laterEnd selection)) syntax (laterEnd selection))
          = true
       /\ getAbbreviation editor (TextEditor.document editor) selection
            (laterEnd selection) (String.eqb syntax "html")
          = Some (rangeToReplace input, ExpandAbbreviationInput.abbreviation input).

End Readings.

(** More concrete collaborators. *)
Module Sample2.

(** A lookup of modes that knows [html] and [css] and honours the list of
    excluded languages. *)
Definition helper : @EmmetHelper Sample.foreign := {|
  getExpandOptions := fun _ _ _ _ =>
    @mkExpandOptions Sample.foreign {["inlineBreak" := JsNumber 0; "indent" := JsNumber 4]} tt;
  extractAbbreviation := fun _ p => (Range.new p p, EmptyString);
  isStyleSheet := fun s => String.eqb s "css";
  isAbbreviationValid := fun _ a => truthy_string a && allChars isWordChar a;
  getEmmetMode := fun l excluded =>
    match l with
    | Some s =>
        if (String.eqb s "html" || String.eqb s "css")
           && negb (bool_decide (s ∈ excluded))
        then Some s else None
    | None => None
    end
|}.

(** A mapping of one included language. *)
Definition util : Util := {|
  getNode := fun _ _ => None;
  getInnerRange := fun _ => Range.new (Position.mk 0 0) (Position.mk 0 0);
  getMappingForIncludedLanguages := {["vue-html" := "html"]};
  parseDocument := fun _ => Some (EmmetNode.mkNode "root" None None None);
  validate := fun e => bool_decide (is_Some e)
|}.

(** An input box that is dismissed, and one that answers [ul]. *)
Definition vscode : @Vscode Sample.foreign := Sample.vscode.

Definition answering : @Vscode Sample.foreign := {|
  emmetConfig := @mkEmmetConfig Sample.foreign tt tt None;
  inputBoxAnswer := fun _ => Some "ul";
  applySnippet := fun e s _ =>
    (TextEditor.mk
       (TextDocument.mk (TextDocument.languageId (TextEditor.document e)) [s]
                        (TextDocument.eol (TextEditor.document e)))
       (TextEditor.selections e), true)
|}.

(** An engine that raises on every abbreviation but [div]. *)
Definition partialEngine : @Engine Sample.foreign := {|
  expand := fun a _ => if String.eqb a "div" then Some "<div></div>" else None
|}.

(** A world whose document has the language [language]. *)
Definition world (language : string) (text : list string)
    (selections : list Selection.t) : @World Sample.foreign :=
  mkWorld (Some (TextEditor.mk
                   (TextDocument.mk language text (String "010" EmptyString))
                   selections)) [].

End Sample2.

(** * Properties *)

(** ** Positions and ranges *)

Lemma isBefore_spec (a b : Position.t) :
  Position.isBefore a b = true <->
  Position.line a < Position.line b
  \/ (Position.line a = Position.line b /\ Position.character a < Position.character b).
Proof.
  unfold Position.isBefore.
  rewrite orb_true_iff, andb_true_iff, !Nat.ltb_lt, Nat.eqb_eq. tauto.
Qed.

Lemma isAfter_spec (p q : Position.t) :
  Position.isAfter p q = true <->
  Position.line q < Position.line p
  \/ (Position.line q = Position.line p /\ Position.character q < Position.character p).
Proof.
  unfold Position.isAfter, Position.isBeforeOrEqual.
  rewrite negb_true_iff, orb_false_iff, andb_false_iff.
  rewrite Nat.ltb_ge, Nat.eqb_neq, Nat.leb_gt. lia.
Qed.

Lemma isEqual_spec (a b : Position.t) :
  Position.isEqual a b = true <-> a = b.
Proof.
  unfold Position.isEqual. destruct a as [la ca], b as [lb cb]; simpl.
  rewrite andb_true_iff, !Nat.eqb_eq. split.
  - intros [-> ->]. reflexivity.
  - intros E. injection E as -> ->. split; reflexivity.
Qed.

Lemma contains_spec (r : Range.t) (p : Position.t) :
  Range.contains r p = true <->
  Position.isBefore p (Range.start r) = false
  /\ Position.isBefore (Range.end_ r) p = false.
Proof.
  unfold Range.contains. rewrite andb_true_iff, !negb_true_iff. tauto.
Qed.

(** The constructor of a range leaves a well-formed range. *)
Lemma new_wellFormed (a b : Position.t) : wellFormed (Range.new a b).
Proof.
  unfold wellFormed, Range.new.
  destruct (Position.isBefore a b) eqn:E; simpl.
  - apply not_true_is_false. intros E'.
    apply isBefore_spec in E. apply isBefore_spec in E'. lia.
  - exact E.
Qed.

(** Building a range again from the coordinates of a well-formed range gives
    the same range. *)
Lemma new4_wellFormed (r : Range.t) :
  wellFormed r ->
  Range.new4 (Position.line (Range.start r)) (Position.character (Range.start r))
             (Position.line (Range.end_ r)) (Position.character (Range.end_ r)) = r.
Proof.
  unfold wellFormed, Range.new4, Range.new.
  destruct r as [[sl sc] [el ec]]; simpl. intros WF.
  destruct (Position.isBefore (Position.mk sl sc) (Position.mk el ec)) eqn:E.
  - reflexivity.
  - assert (N1 : ~ (Position.isBefore (Position.mk sl sc) (Position.mk el ec) = true))
      by (rewrite E; discriminate).
    assert (N2 : ~ (Position.isBefore (Position.mk el ec) (Position.mk sl sc) = true))
      by (rewrite WF; discriminate).
    rewrite isBefore_spec in N1, N2. simpl in N1, N2.
    assert (sl = el) by lia. assert (sc = ec) by lia. subst. reflexivity.
Qed.

(** ** The location validator *)

Section ValidatorProperties.

Context `{EmmetHelper} `{!Util}.

(** C1, as the code has it: when no parsed node encloses the position, the
    validator returns false in a stylesheet dialect and true in a markup
    dialect, whatever the position. *)
Theorem C1_no_enclosing_node (syntax : string) (position : Position.t) :
  (isStyleSheet syntax = true ->
   isValidLocationForEmmetAbbreviation None syntax position = Bool false)
  /\ (isStyleSheet syntax = false ->
      isValidLocationForEmmetAbbreviation None syntax position = Bool true).
Proof.
  unfold isValidLocationForEmmetAbbreviation.
  split; intros Dialect; rewrite Dialect; reflexivity.
Qed.

(** C3: in a markup dialect, for a position enclosed by an element, the
    validator returns true exactly when the position lies within the inner
    span of the element if the element has a closing counterpart, and false
    if it has none. *)
Theorem C3_markup_element (currentNode : Node) (syntax : string) (position : Position.t) :
  isStyleSheet syntax = false ->
  (forall closing, EmmetNode.close currentNode = Some closing ->
     isValidLocationForEmmetAbbreviation (Some currentNode) syntax position
     = Bool (Range.contains (getInnerRange currentNode) position))
  /\ (EmmetNode.close currentNode = None ->
      isValidLocationForEmmetAbbreviation (Some currentNode) syntax position
      = Bool false).
Proof.
  intros Markup. unfold isValidLocationForEmmetAbbreviation. rewrite Markup.
  split.
  - intros closing ->. reflexivity.
  - intros ->. reflexivity.
Qed.

(** The exception for nested rules applies to a node when its parent is a
    rule and its selector starts and ends on different lines. *)
Lemma nested_multiline_selector_spec (n : Node) :
  nested_multiline_selector n = true <->
  exists parent tok,
    EmmetNode.parent n = Some parent
    /\ EmmetNode.type parent = "rule"
    /\ EmmetNode.selectorToken n = Some tok
    /\ Position.line (EmmetNode.start tok) <> Position.line (EmmetNode.end_ tok).
Proof.
  unfold nested_multiline_selector. split.
  - destruct (EmmetNode.parent n) as [parent|]; [|discriminate].
    destruct (EmmetNode.selectorToken n) as [tok|].
    + rewrite andb_true_iff, negb_true_iff, String.eqb_eq, Nat.eqb_neq.
      intros [T L]. exists parent, tok. auto.
    + rewrite andb_false_r. discriminate.
  - intros (parent & tok & -> & T & -> & L).
    rewrite andb_true_iff, negb_true_iff, String.eqb_eq, Nat.eqb_neq. auto.
Qed.

(** C4: in a stylesheet dialect, for a position enclosed by a node of kind
    rule to which the exception for nested multi-line selectors does not
    apply, the validator returns true exactly when the position is strictly
    after the end of the selector span of the rule. *)
Theorem C4_rule_body (currentNode : Node) (syntax : string) (position : Position.t) :
  isStyleSheet syntax = true ->
  EmmetNode.type currentNode = "rule" ->
  ~ (exists parent tok,
       EmmetNode.parent currentNode = Some parent
       /\ EmmetNode.type parent = "rule"
       /\ EmmetNode.selectorToken currentNode = Some tok
       /\ Position.line (EmmetNode.start tok) <> Position.line (EmmetNode.end_ tok)) ->
  isValidLocationForEmmetAbbreviation (Some currentNode) syntax position = Bool true
  <-> exists selector,
        EmmetNode.selectorToken currentNode = Some selector
        /\ (Position.line (EmmetNode.end_ selector) < Position.line position
            \/ (Position.line (EmmetNode.end_ selector) = Position.line position
                /\ Position.character (EmmetNode.end_ selector)
                   < Position.character position)).
Proof.
  intros Sheet Rule NoException.
  rewrite <- nested_multiline_selector_spec in NoException.
  apply not_true_is_false in NoException.
  unfold isValidLocationForEmmetAbbreviation.
  rewrite Sheet, Rule, NoException. simpl.
  destruct (EmmetNode.selectorToken currentNode) as [tok|].
  - split.
    + intros E. exists tok. split; [reflexivity|].
      apply isAfter_spec. congruence.
    + intros (selector & E & After). injection E as <-.
      apply isAfter_spec in After. rewrite After. reflexivity.
  - split; [discriminate|]. intros (selector & E & _). discriminate.
Qed.

(** C5: in a stylesheet dialect, for a position enclosed by a node of kind
    rule whose parent is a rule too and whose selector span starts and ends
    on different lines, the validator returns true wherever the position
    is. *)
Theorem C5_nested_multiline_selector
    (currentNode parent : Node) (selector : Token)
    (syntax : string) (position : Position.t) :
  isStyleSheet syntax = true ->
  EmmetNode.type currentNode = "rule" ->
  EmmetNode.parent currentNode = Some parent ->
  EmmetNode.type parent = "rule" ->
  EmmetNode.selectorToken currentNode = Some selector ->
  Position.line (EmmetNode.start selector) <> Position.line (EmmetNode.end_ selector) ->
  isValidLocationForEmmetAbbreviation (Some currentNode) syntax position = Bool true.
Proof.
  intros Sheet Rule Parent ParentRule Selector Lines.
  assert (Exception : nested_multiline_selector currentNode = true).
  { apply nested_multiline_selector_spec. exists parent, selector. auto. }
  unfold isValidLocationForEmmetAbbreviation.
  rewrite Sheet, Rule, Exception. reflexivity.
Qed.

End ValidatorProperties.

(** C1 as the specification states it fails: in the stylesheet
    dialect [css] the validator returns false without an enclosing node, and
    in the markup dialect [html] it returns true. *)
Lemma C1_counterexample :
  @isStyleSheet _ Sample.helper "css" = true
  /\ @isValidLocationForEmmetAbbreviation _ Sample.helper Sample.util
       None "css" (Sample.pos 0 0) = Bool false
  /\ @isStyleSheet _ Sample.helper "html" = false
  /\ @isValidLocationForEmmetAbbreviation _ Sample.helper Sample.util
       None "html" (Sample.pos 0 0) = Bool true.
Proof. repeat split; reflexivity. Qed.

(** Without an enclosing node, a position of a [less] document is not valid
    and a position of an [html] document is. *)
Lemma C1_no_enclosing_node_witness :
  @isValidLocationForEmmetAbbreviation _ Sample.helper Sample.util
    None "less" (Sample.pos 3 7) = Bool false
  /\ @isValidLocationForEmmetAbbreviation _ Sample.helper Sample.util
       None "html" (Sample.pos 3 7) = Bool true.
Proof.
  split.
  - exact (proj1 (@C1_no_enclosing_node _ Sample.helper Sample.util
                    "less" (Sample.pos 3 7)) eq_refl).
  - exact (proj2 (@C1_no_enclosing_node _ Sample.helper Sample.util
                    "html" (Sample.pos 3 7)) eq_refl).
Defined.

(** An element of line 0 whose inner span runs from column 5 to column 8:
    column 6 is inside, column 9 is not, and nothing is valid in an element
    without a closing tag. *)
Lemma C3_markup_element_witness :
  @isStyleSheet _ Sample.helper "html" = false
  /\ @isValidLocationForEmmetAbbreviation _ Sample.helper Sample.util
       (Some (Sample.element 0 8 14)) "html" (Sample.pos 0 6) = Bool true
  /\ @isValidLocationForEmmetAbbreviation _ Sample.helper Sample.util
       (Some (Sample.element 0 8 14)) "html" (Sample.pos 0 9) = Bool false
  /\ @isValidLocationForEmmetAbbreviation _ Sample.helper Sample.util
       (Some Sample.unclosed) "html" (Sample.pos 0 6) = Bool false.
Proof.
  split; [reflexivity|]. split; [|split].
  - destruct (@C3_markup_element _ Sample.helper Sample.util
                (Sample.element 0 8 14) "html" (Sample.pos 0 6) eq_refl) as [Closed _].
    rewrite (Closed _ eq_refl). reflexivity.
  - destruct (@C3_markup_element _ Sample.helper Sample.util
                (Sample.element 0 8 14) "html" (Sample.pos 0 9) eq_refl) as [Closed _].
    rewrite (Closed _ eq_refl). reflexivity.
  - destruct (@C3_markup_element _ Sample.helper Sample.util
                Sample.unclosed "html" (Sample.pos 0 6) eq_refl) as [_ Unclosed].
    exact (Unclosed eq_refl).
Defined.

(** The rule-body boundary: for a rule whose selector ends at line 2, column
    10, the position (2, 11) is valid and the position (2, 10) is not. *)
Lemma C4_rule_body_witness :
  @isValidLocationForEmmetAbbreviation _ Sample.helper Sample.util
    (Some (Sample.rule None 2 0 2 10)) "css" (Sample.pos 2 11) = Bool true
  /\ @isValidLocationForEmmetAbbreviation _ Sample.helper Sample.util
       (Some (Sample.rule None 2 0 2 10)) "css" (Sample.pos 2 10) <> Bool true.
Proof.
  assert (NoException :
    ~ (exists parent tok,
         EmmetNode.parent (Sample.rule None 2 0 2 10) = Some parent
         /\ EmmetNode.type parent = "rule"
         /\ EmmetNode.selectorToken (Sample.rule None 2 0 2 10) = Some tok
         /\ Position.line (EmmetNode.start tok) <> Position.line (EmmetNode.end_ tok))).
  { intros (parent & tok & E & _). discriminate E. }
  split.
  - apply (@C4_rule_body _ Sample.helper Sample.util
             (Sample.rule None 2 0 2 10) "css" (Sample.pos 2 11)
             eq_refl eq_refl NoException).
    eexists. split; [reflexivity|]. simpl. lia.
  - intros Valid.
    apply (@C4_rule_body _ Sample.helper Sample.util
             (Sample.rule None 2 0 2 10) "css" (Sample.pos 2 10)
             eq_refl eq_refl NoException) in Valid.
    destruct Valid as (selector & E & After).
    injection E as <-. simpl in After. lia.
Defined.

(** A rule nested in a rule, with a selector from line 1 to line 2: a
    position inside the selector is valid. *)
Lemma C5_nested_multiline_selector_witness :
  @isValidLocationForEmmetAbbreviation _ Sample.helper Sample.util
    (Some (Sample.rule (Some (Sample.rule None 0 0 0 4)) 1 2 2 6))
    "scss" (Sample.pos 1 3) = Bool true.
Proof.
  apply (@C5_nested_multiline_selector _ Sample.helper Sample.util
           (Sample.rule (Some (Sample.rule None 0 0 0 4)) 1 2 2 6)
           (Sample.rule None 0 0 0 4)
           (EmmetNode.mkToken (Sample.pos 1 2) (Sample.pos 2 6))
           "scss" (Sample.pos 1 3));
    first [reflexivity | simpl; lia].
Defined.

(** ** Strings *)

Lemma length_substring_0 (m : nat) (s : string) :
  String.length (String.substring 0 m s) = Nat.min m (String.length s).
Proof.
  revert s. induction m as [|m IH]; intros s.
  - destruct s; reflexivity.
  - destruct s as [|c s]; simpl; [reflexivity|]. rewrite IH. reflexivity.
Qed.

Lemma length_append (a b : string) :
  String.length (a +:+ b) = String.length a + String.length b.
Proof. induction a as [|c a IH]; simpl; [reflexivity|]. rewrite IH. reflexivity. Qed.

Lemma truthy_string_nonempty (s : string) : s <> "" -> truthy_string s = true.
Proof. intros N. unfold truthy_string. apply negb_true_iff, String.eqb_neq, N. Qed.

(** A run that holds a character outside the class is not a run of the
    class. *)
Lemma allChars_append_outside (p : ascii -> bool) (a b : string) (c : ascii) :
  p c = false -> allChars p (a +:+ String c b) = false.
Proof.
  intros Out. induction a as [|d a IH]; simpl.
  - rewrite Out. reflexivity.
  - rewrite IH. apply andb_false_r.
Qed.

(** The pattern of an unclosed tag matches a text that ends with [<] and a
    word, and captures the word. *)
Lemma match_unclosed_tag_append (before word : string) :
  word <> "" ->
  allChars isWordChar word = true ->
  match_unclosed_tag (before +:+ String "<" word) = Some word.
Proof.
  intros Nonempty Word. induction before as [|c before IH]; simpl.
  - rewrite (truthy_string_nonempty _ Nonempty), Word. reflexivity.
  - rewrite allChars_append_outside by reflexivity.
    rewrite andb_false_r. exact IH.
Qed.

(** ** The abbreviation locator *)

Section LocatorProperties.

Context `{EmmetHelper}.

(** C6: in the markup dialect with an empty selection, when the text of the
    line of the cursor up to the cursor column ends with [<] followed by one
    or more word characters, the locator returns the word as the abbreviation
    and the range that ends at the cursor and starts one column before the
    word, which is the column of the [<] for a cursor inside the line. *)
Theorem C6_unclosed_tag
    (editor : TextEditor.t) (document : TextDocument.t) (selection : Selection.t)
    (position : Position.t) (currentLine before word : string) :
  Selection.isEmpty selection = true ->
  TextDocument.lineAt (TextEditor.document editor) (Position.line position)
  = Some currentLine ->
  substr currentLine 0 (Some (Position.character position))
  = before +:+ String "<" word ->
  word <> "" ->
  allChars isWordChar word = true ->
  getAbbreviation editor document selection position true
  = Some (Range.mk
            (Position.mk (Position.line position)
                         (Position.character position - (String.length word + 1)))
            position,
          word)
  /\ (Position.character position <= String.length currentLine ->
      Position.character position - (String.length word + 1) = String.length before).
Proof.
  intros Empty Line Text Nonempty Word.
  assert (Len : String.length before + S (String.length word)
                = Nat.min (Position.character position) (String.length currentLine)).
  { rewrite <- length_substring_0. unfold substr in Text. rewrite Text.
    rewrite length_append. reflexivity. }
  split.
  - unfold getAbbreviation. unfold Selection.isEmpty in Empty.
    rewrite Empty, Line, Text, (match_unclosed_tag_append _ _ Nonempty Word).
    simpl. unfold Position.translate_back.
    assert (Fits : (String.length word + 1 <=? Position.character position)%nat = true)
      by (apply Nat.leb_le; lia).
    rewrite Fits. unfold Range.new.
    assert (Before : Position.isBefore
                       (Position.mk (Position.line position)
                          (Position.character position - (String.length word + 1)))
                       position = true).
    { apply isBefore_spec. simpl. right. split; [reflexivity|]. lia. }
    rewrite Before. reflexivity.
  - intros Inside. lia.
Qed.

(** C7: for a selection that is not empty, the locator returns the selection
    as the range to replace and the text of the document in it as the
    abbreviation, whatever the dialect. *)
Theorem C7_selection_text
    (editor : TextEditor.t) (document : TextDocument.t) (selection : Selection.t)
    (position : Position.t) (isHtml : bool) :
  Selection.isEmpty selection = false ->
  getAbbreviation editor document selection position isHtml
  = Some (Selection.range selection,
          TextDocument.getText document (Selection.range selection)).
Proof.
  intros Nonempty. unfold getAbbreviation. unfold Selection.isEmpty in Nonempty.
  rewrite Nonempty. reflexivity.
Qed.

End LocatorProperties.

(** The line [<div] with the cursor at column 4: the abbreviation is [div]
    and the range covers columns 0 to 4. *)
Lemma C6_unclosed_tag_witness :
  @getAbbreviation _ Sample.helper
    (Sample.editor ["<div"] [Sample.cursor 0 4]) (Sample.document ["<div"])
    (Sample.cursor 0 4) (Sample.pos 0 4) true
  = Some (Range.mk (Sample.pos 0 0) (Sample.pos 0 4), "div").
Proof.
  destruct (@C6_unclosed_tag _ Sample.helper
              (Sample.editor ["<div"] [Sample.cursor 0 4]) (Sample.document ["<div"])
              (Sample.cursor 0 4) (Sample.pos 0 4) "<div" "" "div"
              eq_refl eq_refl eq_refl ltac:(discriminate) eq_refl) as [Located _].
  exact Located.
Defined.

(** A selection that spans the text [abc]: the locator returns that range
    and that text, in the markup dialect and outside it. *)
Lemma C7_selection_text_witness :
  @getAbbreviation _ Sample.helper
    (Sample.editor ["abc"] []) (Sample.document ["abc"])
    (Selection.mk (Sample.pos 0 0) (Sample.pos 0 3)) (Sample.pos 0 3) true
  = Some (Range.mk (Sample.pos 0 0) (Sample.pos 0 3), "abc")
  /\ @getAbbreviation _ Sample.helper
       (Sample.editor ["abc"] []) (Sample.document ["abc"])
       (Selection.mk (Sample.pos 0 3) (Sample.pos 0 0)) (Sample.pos 0 3) false
     = Some (Range.mk (Sample.pos 0 0) (Sample.pos 0 3), "abc").
Proof.
  split.
  - exact (@C7_selection_text _ Sample.helper
             (Sample.editor ["abc"] []) (Sample.document ["abc"])
             (Selection.mk (Sample.pos 0 0) (Sample.pos 0 3)) (Sample.pos 0 3)
             true eq_refl).
  - exact (@C7_selection_text _ Sample.helper
             (Sample.editor ["abc"] []) (Sample.document ["abc"])
             (Selection.mk (Sample.pos 0 3) (Sample.pos 0 0)) (Sample.pos 0 3)
             false eq_refl).
Defined.

(** ** The expansion orchestrator *)

Section OrchestratorProperties.

Context `{Engine} `{!EmmetHelper} `{!Util} `{!Vscode}.

Lemma insertions_app (a b : list Event) :
  insertions (a ++ b) = (insertions a ++ insertions b)%list.
Proof. apply omap_app. Qed.

Lemma expandCalls_app (a b : list Event) :
  expandCalls (a ++ b) = (expandCalls a ++ expandCalls b)%list.
Proof. apply omap_app. Qed.

(** [expandAbbr] never lets an exception out: it returns the expansion, or
    no value, and only adds to the log. *)
Lemma expandAbbr_run (input : ExpandAbbreviationInput.t) (w : World) :
  expandAbbr input w
  = (Some (expansionOf input),
     mkWorld (activeTextEditor w) (events w ++ expandAbbrEvents input)).
Proof.
  unfold expandAbbr, expansionOf, expandAbbrEvents, expansionOf, callExpand,
    showErrorMessage, bind, emit, ret.
  simpl.
  destruct (expand (abbreviation input) (expandOptionsOf input)); simpl.
  - reflexivity.
  - rewrite <- app_assoc. reflexivity.
Qed.

Lemma expansionOf_None (input : ExpandAbbreviationInput.t) :
  expansionOf input = None <->
  expand (abbreviation input) (expandOptionsOf input) = None.
Proof.
  unfold expansionOf.
  destruct (expand (abbreviation input) (expandOptionsOf input));
    split; intros E; congruence.
Qed.

Lemma insertions_expandAbbrEvents (input : ExpandAbbreviationInput.t) :
  insertions (expandAbbrEvents input) = [].
Proof. unfold expandAbbrEvents. destruct (expansionOf input); reflexivity. Qed.

Lemma expandCalls_expandAbbrEvents (input : ExpandAbbreviationInput.t) :
  expandCalls (expandAbbrEvents input)
  = [(abbreviation input, expandOptionsOf input)].
Proof. unfold expandAbbrEvents. destruct (expansionOf input); reflexivity. Qed.

(** With an active editor, the callback of the path where the snippets
    differ returns, and leaves an active editor. *)
Lemma insertOne_returns (input : ExpandAbbreviationInput.t)
    (promises : list (Thenable bool)) (w : World) :
  is_Some (activeTextEditor w) ->
  exists promises' w',
    insertOne input promises w = (Some promises', w')
    /\ is_Some (activeTextEditor w').
Proof.
  intros [editor Active]. unfold insertOne, bind. rewrite expandAbbr_run.
  destruct (truthy_opt (expansionOf input)).
  - unfold insertSnippet. simpl. rewrite Active.
    destruct (applySnippet editor _ _) as [editor' applied]. simpl.
    eexists _, _. split; [reflexivity|]. simpl. eauto.
  - eexists _, _. split; [reflexivity|]. simpl. eauto.
Qed.

Lemma forEach_insertOne_returns (l : list ExpandAbbreviationInput.t)
    (promises : list (Thenable bool)) (w : World) :
  is_Some (activeTextEditor w) ->
  exists promises' w',
    forEach l insertOne promises w = (Some promises', w')
    /\ is_Some (activeTextEditor w').
Proof.
  revert promises w. induction l as [|input l IH]; intros promises w Active.
  - exists promises, w. split; [reflexivity | exact Active].
  - destruct (insertOne_returns input promises w Active)
      as (promises1 & w1 & Run & Active1).
    destruct (IH promises1 w1 Active1) as (promises2 & w2 & Rest & Active2).
    exists promises2, w2. split; [|exact Active2].
    simpl. unfold bind. rewrite Run. exact Rest.
Qed.

(** The path where the snippets differ calls the engine once for every
    request, in order, and inserts one snippet at one range for every request
    whose expansion is a text that is not empty. *)
Lemma forEach_insertOne_events (l : list ExpandAbbreviationInput.t)
    (promises : list (Thenable bool)) (w : World) :
  is_Some (activeTextEditor w) ->
  exists new,
    events (snd (forEach l insertOne promises w)) = (events w ++ new)%list
    /\ expandCalls new = map (fun input => (abbreviation input, expandOptionsOf input)) l
    /\ insertions new = omap insertionOf l.
Proof.
  revert promises w. induction l as [|input l IH]; intros promises w Active.
  - exists []. simpl. rewrite app_nil_r. repeat split; reflexivity.
  - destruct Active as [editor Active].
    assert (Step : exists promises1 editor1,
      insertOne input promises w
      = (Some promises1,
         mkWorld (Some editor1)
           (events w ++ expandAbbrEvents input
              ++ match insertionOf input with
                 | Some (text, location) => [InsertSnippet text location]
                 | None => []
                 end))).
    { unfold insertOne, insertionOf, bind. rewrite expandAbbr_run.
      unfold expandAbbrEvents, ret.
      destruct (expansionOf input) as [text|]; simpl.
      - destruct (truthy_string text); simpl.
        + unfold insertSnippet. simpl. rewrite Active.
          destruct (applySnippet editor text _) as [editor1 applied]. simpl.
          rewrite <- app_assoc. eauto.
        + rewrite Active. eauto.
      - rewrite Active. eauto. }
    destruct Step as (promises1 & editor1 & Step).
    simpl. unfold bind. rewrite Step.
    destruct (IH promises1
                (mkWorld (Some editor1)
                   (events w ++ expandAbbrEvents input
                      ++ match insertionOf input with
                         | Some (text, location) => [InsertSnippet text location]
                         | None => []
                         end)))
      as (new & Events & Calls & Inserted); [simpl; eauto|].
    exists (expandAbbrEvents input
              ++ match insertionOf input with
                 | Some (text, location) => [InsertSnippet text location]
                 | None => []
                 end ++ new)%list.
    split; [rewrite Events; cbn [events]; rewrite <- !app_assoc; reflexivity|].
    rewrite !expandCalls_app, !insertions_app.
    rewrite expandCalls_expandAbbrEvents, insertions_expandAbbrEvents, Calls, Inserted.
    simpl. destruct (insertionOf input) as [[text location]|]; split; reflexivity.
Qed.

(** Without the uniform flag the orchestrator makes one call of the engine
    and at most one insertion, at a single range, for every request. *)
Lemma differing_events (expandAbbrList : list ExpandAbbreviationInput.t) (w : World) :
  is_Some (activeTextEditor w) ->
  exists new,
    events (snd (expandAbbreviationInRange expandAbbrList false w))
    = (events w ++ new)%list
    /\ expandCalls new
       = map (fun input => (abbreviation input, expandOptionsOf input)) expandAbbrList
    /\ insertions new = omap insertionOf expandAbbrList.
Proof.
  intros Active. destruct expandAbbrList as [|first rest].
  - exists []. simpl. rewrite app_nil_r. repeat split; reflexivity.
  - destruct (forEach_insertOne_events (first :: rest) [] w Active)
      as (new & Events & Calls & Inserted).
    exists new. split; [|split; assumption].
    unfold expandAbbreviationInRange, bind. cbn [negb]. cbv beta iota.
    destruct (forEach (first :: rest) insertOne [] w) as [[promises|] w1];
      exact Events.
Qed.

(** The uniform path on a list that is not empty, step by step. *)
Lemma uniform_run (first : ExpandAbbreviationInput.t)
    (rest : list ExpandAbbreviationInput.t) (w : World) (editor : TextEditor.t) :
  activeTextEditor w = Some editor ->
  expandAbbreviationInRange (first :: rest) true w
  = match expansionOf first with
    | Some text =>
        if truthy_string text then
          let location := Ranges (copiedRanges (first :: rest)) in
          (Some (Some (Resolves (snd (applySnippet editor text location)))),
           mkWorld (Some (fst (applySnippet editor text location)))
                   (events w ++ expandAbbrEvents first ++ [InsertSnippet text location]))
        else
          (Some None, mkWorld (Some editor) (events w ++ expandAbbrEvents first))
    | None =>
        (Some None, mkWorld (Some editor) (events w ++ expandAbbrEvents first))
    end.
Proof.
  intros Active. unfold expandAbbreviationInRange, bind. cbn [negb]. cbv beta iota.
  rewrite expandAbbr_run, Active.
  destruct (expansionOf first) as [text|]; simpl; [|reflexivity].
  destruct (truthy_string text); [|reflexivity].
  unfold insertSnippet, ret. simpl.
  destruct (applySnippet editor text _) as [editor' applied]. simpl.
  rewrite <- app_assoc. reflexivity.
Qed.

(** C2, as the code has it: with an active editor, for an empty list the
    orchestrator returns no value and changes nothing; for a list that is not empty, without the
    uniform flag it returns a promise that resolves to true, and with the
    uniform flag it returns the promise of its one insertion, which resolves
    to whether the snippet was inserted, when the expansion of the first
    request is a text that is not empty, and no value otherwise. *)
Theorem C2_result (expandAbbrList : list ExpandAbbreviationInput.t)
    (insertSameSnippet : bool) (w : World) (editor : TextEditor.t) :
  activeTextEditor w = Some editor ->
  fst (expandAbbreviationInRange expandAbbrList insertSameSnippet w)
  = Some
      match expandAbbrList with
      | [] => None
      | first :: _ =>
          if insertSameSnippet then
            match expansionOf first with
            | Some text =>
                if truthy_string text then
                  Some (Resolves
                          (snd (applySnippet editor text
                                  (Ranges (copiedRanges expandAbbrList)))))
                else None
            | None => None
            end
          else Some (Resolves true)
      end
  /\ (expandAbbrList = [] ->
      snd (expandAbbreviationInRange expandAbbrList insertSameSnippet w) = w).
Proof.
  intros Active. split; [|intros ->; reflexivity].
  destruct expandAbbrList as [|first rest]; [reflexivity|].
  destruct insertSameSnippet.
  - rewrite (uniform_run first rest w editor Active).
    destruct (expansionOf first) as [text|]; [|reflexivity].
    destruct (truthy_string text); reflexivity.
  - unfold expandAbbreviationInRange, bind. cbn [negb]. cbv beta iota.
    destruct (forEach_insertOne_returns (first :: rest) [] w)
      as (promises & w' & Run & _).
    { rewrite Active. eauto. }
    rewrite Run. reflexivity.
Qed.

(** C8, as the code has it: with the uniform flag and a list that is not
    empty, the orchestrator calls the engine exactly once, for the first
    request, and, when the expansion is a text that is not empty, inserts a
    snippet exactly once, at the ranges of all the requests; otherwise it
    inserts nothing. *)
Theorem C8_uniform_insertion (first : ExpandAbbreviationInput.t)
    (rest : list ExpandAbbreviationInput.t) (w : World) (editor : TextEditor.t) :
  activeTextEditor w = Some editor ->
  Forall (fun input => wellFormed (rangeToReplace input)) (first :: rest) ->
  exists new,
    events (snd (expandAbbreviationInRange (first :: rest) true w)) = (events w ++ new)%list
    /\ expandCalls new = [(abbreviation first, expandOptionsOf first)]
    /\ insertions new
       = match expansionOf first with
         | Some text =>
             if truthy_string text
             then [(text, Ranges (map rangeToReplace (first :: rest)))]
             else []
         | None => []
         end.
Proof.
  intros Active WellFormed.
  assert (Copied : copiedRanges (first :: rest) = map rangeToReplace (first :: rest)).
  { unfold copiedRanges. apply map_ext_Forall.
    eapply Forall_impl; [exact WellFormed|].
    intros input WF. apply new4_wellFormed, WF. }
  rewrite (uniform_run first rest w editor Active).
  destruct (expansionOf first) as [text|] eqn:Expansion.
  - destruct (truthy_string text).
    + eexists. split; [reflexivity|].
      rewrite expandCalls_app, insertions_app.
      rewrite expandCalls_expandAbbrEvents, insertions_expandAbbrEvents.
      rewrite Copied. split; reflexivity.
    + eexists. split; [reflexivity|].
      rewrite expandCalls_expandAbbrEvents, insertions_expandAbbrEvents.
      split; reflexivity.
  - eexists. split; [reflexivity|].
    rewrite expandCalls_expandAbbrEvents, insertions_expandAbbrEvents.
    split; reflexivity.
Qed.

(** C9: when the engine raises for a request, [expandAbbr] shows an error
    notice and returns no value, without an exception; and in the uniform
    path, when the first request yields no value, the orchestrator inserts
    no snippet, leaves the editor and its document as they were, and returns
    no value. *)
Theorem C9_engine_failure (input : ExpandAbbreviationInput.t)
    (rest : list ExpandAbbreviationInput.t) (w : World) :
  (expand (abbreviation input) (expandOptionsOf input) = None ->
   expandAbbr input w
   = (Some None,
      mkWorld (activeTextEditor w)
        (events w ++ [ExpandCall (abbreviation input) (expandOptionsOf input);
                      ShowErrorMessage "Failed to expand abbreviation"])))
  /\ (fst (expandAbbr input w) = Some None ->
      let after := expandAbbreviationInRange (input :: rest) true w in
      fst after = Some None
      /\ activeTextEditor (snd after) = activeTextEditor w
      /\ insertions (events (snd after)) = insertions (events w)).
Proof.
  split.
  - intros Raises. rewrite expandAbbr_run.
    apply expansionOf_None in Raises.
    unfold expandAbbrEvents. rewrite Raises. reflexivity.
  - rewrite expandAbbr_run. simpl. intros NoValue.
    injection NoValue as NoValue.
    unfold expandAbbreviationInRange, bind. cbn [negb]. cbv beta iota.
    rewrite expandAbbr_run, NoValue. simpl.
    rewrite insertions_app, insertions_expandAbbrEvents, app_nil_r.
    repeat split; reflexivity.
Qed.

End OrchestratorProperties.

(** With the uniform flag and an engine that expands [div], two requests
    give one promise, which resolves to what the insertion reports. *)
Lemma C2_result_witness :
  fst (@expandAbbreviationInRange _ Sample.engine Sample.helper Sample.vscode
         [Sample.request "div" 0 0 3; Sample.request "div" 1 0 3] true
         (Sample.world ["div"; "div"] []))
  = Some (Some (Resolves true)).
Proof.
  rewrite (proj1 (@C2_result _ Sample.engine Sample.helper Sample.vscode
                    [Sample.request "div" 0 0 3; Sample.request "div" 1 0 3] true
                    (Sample.world ["div"; "div"] []) (Sample.editor ["div"; "div"] [])
                    eq_refl)).
  reflexivity.
Defined.

(** C2 as the specification states it fails on a list that is not
    empty when the engine raises: without the uniform flag the promise
    resolves to true although nothing was inserted and the editor is as it
    was, and with the uniform flag no promise is returned at all. *)
Lemma C2_counterexample :
  let w := Sample.world ["div"; "ul"] [] in
  let differ :=
    @expandAbbreviationInRange _ Sample.failingEngine Sample.helper Sample.vscode
      [Sample.request "div" 0 0 3; Sample.request "ul" 1 0 2] false w in
  let same :=
    @expandAbbreviationInRange _ Sample.failingEngine Sample.helper Sample.vscode
      [Sample.request "div" 0 0 3; Sample.request "div" 1 0 3] true w in
  fst differ = Some (Some (Resolves true))
  /\ insertions (events (snd differ)) = []
  /\ activeTextEditor (snd differ) = activeTextEditor w
  /\ fst same = Some None.
Proof. repeat split; reflexivity. Qed.

(** Three requests for [div] on three lines, with the uniform flag: one call
    of the engine and one insertion at the three ranges. *)
Lemma C8_uniform_insertion_witness :
  let w' :=
    snd (@expandAbbreviationInRange _ Sample.engine Sample.helper Sample.vscode
           [Sample.request "div" 0 0 3; Sample.request "div" 1 0 3;
            Sample.request "div" 2 0 3] true
           (Sample.world ["div"; "div"; "div"] [])) in
  length (expandCalls (events w')) = 1
  /\ insertions (events w')
     = [("<div></div>",
         Ranges [Range.mk (Sample.pos 0 0) (Sample.pos 0 3);
                 Range.mk (Sample.pos 1 0) (Sample.pos 1 3);
                 Range.mk (Sample.pos 2 0) (Sample.pos 2 3)])].
Proof.
  destruct (@C8_uniform_insertion _ Sample.engine Sample.helper Sample.vscode
              (Sample.request "div" 0 0 3)
              [Sample.request "div" 1 0 3; Sample.request "div" 2 0 3]
              (Sample.world ["div"; "div"; "div"] [])
              (Sample.editor ["div"; "div"; "div"] []) eq_refl)
    as (new & Events & Calls & Inserted).
  { repeat constructor. }
  cbv zeta. rewrite Events. simpl app. rewrite Calls, Inserted.
  split; reflexivity.
Defined.

(** C8 as the specification states it fails when the engine raises:
    three requests with the same abbreviation and the uniform flag give one
    call of the engine and no insertion. *)
Lemma C8_counterexample :
  let w' :=
    snd (@expandAbbreviationInRange _ Sample.failingEngine Sample.helper
           Sample.vscode
           [Sample.request "div" 0 0 3; Sample.request "div" 1 0 3;
            Sample.request "div" 2 0 3] true
           (Sample.world ["div"; "div"; "div"] [])) in
  length (expandCalls (events w')) = 1
  /\ length (insertions (events w')) = 0.
Proof. split; reflexivity. Qed.

(** With an engine that raises: one error notice, no value, no insertion,
    and the editor as it was. *)
Lemma C9_engine_failure_witness :
  let w := Sample.world ["div"; "div"] [] in
  let input := Sample.request "div" 0 0 3 in
  let one := @expandAbbr _ Sample.failingEngine Sample.helper Sample.vscode input w in
  let all :=
    @expandAbbreviationInRange _ Sample.failingEngine Sample.helper Sample.vscode
      [input; Sample.request "div" 1 0 3] true w in
  fst one = Some None
  /\ errorMessages (events (snd one)) = ["Failed to expand abbreviation"]
  /\ fst all = Some None
  /\ activeTextEditor (snd all) = activeTextEditor w
  /\ insertions (events (snd all)) = [].
Proof.
  destruct (@C9_engine_failure _ Sample.failingEngine Sample.helper Sample.vscode
              (Sample.request "div" 0 0 3) [Sample.request "div" 1 0 3]
              (Sample.world ["div"; "div"] [])) as [Raises NoValue].
  specialize (Raises eq_refl).
  cbv zeta. rewrite Raises in NoValue |- *.
  specialize (NoValue eq_refl). cbv zeta in NoValue.
  destruct NoValue as (Nothing & Editor & Inserted).
  split; [reflexivity|]. split; [reflexivity|].
  split; [exact Nothing|]. split; [exact Editor | exact Inserted].
Defined.

(** ** The range to wrap *)

(** A reversed selection read from its active end to its anchor is the
    range the selection already is. *)
Lemma reversed_range (selection : Selection.t) :
  Selection.isReversed selection = true ->
  Range.new (Selection.active selection) (Selection.anchor selection)
  = Selection.range selection.
Proof.
  unfold Selection.isReversed, Selection.range, Range.new. intros Reversed.
  rewrite Reversed.
  destruct (Position.isBefore (Selection.anchor selection) (Selection.active selection))
    eqn:Forward; [|reflexivity].
  apply isBefore_spec in Reversed. apply isBefore_spec in Forward. lia.
Qed.

Lemma position_eta (p : Position.t) :
  Position.mk (Position.line p) (Position.character p) = p.
Proof. destruct p; reflexivity. Qed.

Lemma new4_whole_line (l n : nat) :
  Range.new4 l 0 l n = Range.mk (Position.mk l 0) (Position.mk l n).
Proof.
  unfold Range.new4, Range.new, Position.isBefore. simpl.
  rewrite Nat.ltb_irrefl, Nat.eqb_refl. destruct n; reflexivity.
Qed.

(** The constructor keeps its arguments when the first is not after the
    second. *)
Lemma new4_ordered (sl sc el ec : nat) :
  sl < el \/ (sl = el /\ sc <= ec) ->
  Range.new4 sl sc el ec = Range.mk (Position.mk sl sc) (Position.mk el ec).
Proof.
  intros Ordered. unfold Range.new4, Range.new.
  destruct (Position.isBefore (Position.mk sl sc) (Position.mk el ec)) eqn:Before;
    [reflexivity|].
  assert (N : ~ (Position.isBefore (Position.mk sl sc) (Position.mk el ec) = true))
    by (rewrite Before; discriminate).
  rewrite isBefore_spec in N. simpl in N.
  assert (sl = el) by lia. assert (sc = ec) by lia. subst. reflexivity.
Qed.

Lemma wellFormed_lines (r : Range.t) :
  wellFormed r ->
  Position.line (Range.start r) < Position.line (Range.end_ r)
  \/ (Position.line (Range.start r) = Position.line (Range.end_ r)
      /\ Position.character (Range.start r) <= Position.character (Range.end_ r)).
Proof.
  unfold wellFormed. intros WF.
  assert (N : ~ (Position.isBefore (Range.end_ r) (Range.start r) = true))
    by (rewrite WF; discriminate).
  rewrite isBefore_spec in N. lia.
Qed.

Lemma length_takeWhile (p : ascii -> bool) (s : string) :
  String.length (takeWhile p s) <= String.length s.
Proof.
  induction s as [|c s IH]; simpl; [lia|]. destruct (p c); simpl; lia.
Qed.

(** What [wrapWithAbbreviation] makes of a selection whose first line is in
    the document, when the run of white space at the start of the range
    does not reach beyond the end of the range: the selection, widened to
    its line when it is empty, with its start moved past the white space and
    its end kept, and the wrap text attached. *)
Lemma wrapInput_range (editor : TextEditor.t) (syntax abbreviation : string)
    (selection : Selection.t) (text : string) :
  let selected := Selection.range selection in
  let l := Position.line (Range.start selected) in
  let base :=
    if Range.isEmpty selected
    then Range.mk (Position.mk l 0) (Position.mk l (String.length text))
    else selected in
  let space :=
    String.length
      (takeWhile isSpaceChar (substr text (Position.character (Range.start base)) None)) in
  TextDocument.lineAt (TextEditor.document editor) l = Some text ->
  Position.line (Range.start base) < Position.line (Range.end_ base)
  \/ Position.character (Range.start base) + space
     <= Position.character (Range.end_ base) ->
  wrapInput editor syntax abbreviation selection
  = Some (ExpandAbbreviationInput.mk syntax abbreviation
            (Range.mk
               (Position.mk l (Position.character (Range.start base) + space))
               (Range.end_ base))
            (Some wrapText)).
Proof.
  intros selected l base space Line Fits.
  unfold wrapInput.
  assert (Normal :
    (if Selection.isReversed selection
     then Range.new (Selection.active selection) (Selection.anchor selection)
     else Selection.range selection) = selected).
  { destruct (Selection.isReversed selection) eqn:Reversed; [|reflexivity].
    apply reversed_range, Reversed. }
  rewrite Normal.
  pose proof (wellFormed_lines selected (new_wellFormed _ _)) as Ordered.
  subst base space. fold l in Ordered |- *.
  destruct (Range.isEmpty selected) eqn:Empty.
  - rewrite Line, new4_whole_line. simpl. rewrite Line. simpl.
    simpl in Fits.
    rewrite new4_ordered; [reflexivity|].
    destruct Fits as [Fits|Fits]; [lia|]. right. split; [reflexivity | exact Fits].
  - fold l. rewrite Line. simpl.
    rewrite new4_ordered; [rewrite position_eta; reflexivity|]. fold l.
    destruct Fits as [Fits|Fits]; [left; exact Fits|].
    destruct Ordered as [Ordered|[Same _]]; [left; exact Ordered|].
    right. split; [exact Same | exact Fits].
Qed.

(** An empty selection always fits: the wrapped range runs from the first
    character of the line that is not white space to the end of the line. *)
Lemma wrapInput_cursor (editor : TextEditor.t) (syntax abbreviation : string)
    (selection : Selection.t) (text : string) :
  let l := Position.line (Range.start (Selection.range selection)) in
  Selection.isEmpty selection = true ->
  TextDocument.lineAt (TextEditor.document editor) l = Some text ->
  wrapInput editor syntax abbreviation selection
  = Some (ExpandAbbreviationInput.mk syntax abbreviation
            (Range.mk
               (Position.mk l (String.length (takeWhile isSpaceChar text)))
               (Position.mk l (String.length text)))
            (Some wrapText)).
Proof.
  intros l Empty Line. unfold Selection.isEmpty in Empty.
  assert (Whole : substr text 0 None = text).
  { unfold substr. rewrite Nat.sub_0_r. clear.
    induction text as [|c text IH]; simpl; [reflexivity|]. rewrite IH. reflexivity. }
  pose proof (wrapInput_range editor syntax abbreviation selection text) as Range.
  cbv zeta in Range. fold l in Range. rewrite Empty in Range.
  cbn [Range.start Range.end_ Position.line Position.character Nat.add] in Range.
  rewrite Whole in Range. apply Range; [exact Line|].
  right. apply length_takeWhile.
Qed.

(** When a selection on one line ends inside the run of white space that
    starts it, the constructor of the range swaps the two ends: the request
    gets the range from the end of the selection to the end of the white
    space. *)
Lemma wrapInput_swapped (editor : TextEditor.t) (syntax abbreviation : string)
    (selection : Selection.t) (text : string) :
  let selected := Selection.range selection in
  let l := Position.line (Range.start selected) in
  let space :=
    String.length
      (takeWhile isSpaceChar
         (substr text (Position.character (Range.start selected)) None)) in
  TextDocument.lineAt (TextEditor.document editor) l = Some text ->
  Range.isEmpty selected = false ->
  Position.line (Range.end_ selected) = l ->
  Position.character (Range.end_ selected)
  < Position.character (Range.start selected) + space ->
  wrapInput editor syntax abbreviation selection
  = Some (ExpandAbbreviationInput.mk syntax abbreviation
            (Range.mk
               (Range.end_ selected)
               (Position.mk l (Position.character (Range.start selected) + space)))
            (Some wrapText)).
Proof.
  intros selected l space Line Nonempty SameLine Beyond.
  unfold wrapInput.
  assert (Normal :
    (if Selection.isReversed selection
     then Range.new (Selection.active selection) (Selection.anchor selection)
     else Selection.range selection) = selected).
  { destruct (Selection.isReversed selection) eqn:Reversed; [|reflexivity].
    apply reversed_range, Reversed. }
  rewrite Normal, Nonempty. fold l. rewrite Line.
  unfold match_leading_space. fold space.
  unfold Range.new4, Range.new.
  assert (After :
    Position.isBefore
      (Position.mk l (Position.character (Range.start selected) + space))
      (Position.mk (Position.line (Range.end_ selected))
                   (Position.character (Range.end_ selected))) = false).
  { apply not_true_is_false. rewrite isBefore_spec. simpl. lia. }
  rewrite After, position_eta. reflexivity.
Qed.

(** C10 fails on a selection of white space that ends before the white
    space does: on the line of four spaces and [abc], the selection of
    columns 0 to 2 gives the range of columns 2 to 4, so that the start of
    the range is not past the white space and its end is not the end of the
    selection. *)
Theorem C10_space_beyond_selection :
  wrapInput (Sample.editor ["    abc"] [Selection.mk (Sample.pos 0 0) (Sample.pos 0 2)])
            "html" "div" (Selection.mk (Sample.pos 0 0) (Sample.pos 0 2))
  = Some (ExpandAbbreviationInput.mk "html" "div"
            (Range.mk (Sample.pos 0 2) (Sample.pos 0 4)) (Some wrapText)).
Proof.
  apply (wrapInput_swapped
           (Sample.editor ["    abc"] [Selection.mk (Sample.pos 0 0) (Sample.pos 0 2)])
           "html" "div" (Selection.mk (Sample.pos 0 0) (Sample.pos 0 2)) "    abc");
    first [reflexivity | simpl; lia].
Qed.

(** ** The flag the caller computes *)

Section CallerProperties.

Context `{Engine} `{!EmmetHelper} `{!Util} `{!Vscode}.

(** One selection keeps the invariant of the flag, when valid abbreviations
    are not empty. *)
Lemma collectAbbreviation_invariant
    (editor : TextEditor.t) (rootNode : Node) (syntax : string)
    (selection : Selection.t) (c c' : Collected) (w w' : World) :
  (forall a, isAbbreviationValid syntax a = true -> a <> "") ->
  flagInvariant c ->
  collectAbbreviation editor rootNode syntax selection c w = (Some c', w') ->
  flagInvariant c'.
Proof.
  intros ValidNonEmpty Inv. unfold collectAbbreviation.
  destruct (getAbbreviation _ _ _ _ _) as [[range a]|]; [|discriminate].
  destruct (isAbbreviationValid syntax a) eqn:Valid; simpl.
  2:{ intros Run. injection Run as <- _. exact Inv. }
  destruct (truthy (isValidLocationForEmmetAbbreviation _ _ _)); simpl.
  2:{ intros Run. injection Run as <- _. exact Inv. }
  intros Run. injection Run as <- _.
  pose proof (ValidNonEmpty a Valid) as Nonempty.
  unfold flagInvariant in *.
  destruct (firstAbbreviation c) as [a0|]; simpl.
  - destruct Inv as (Nonempty0 & (first & rest & List & First) & Flag).
    rewrite (truthy_string_nonempty _ Nonempty0). simpl.
    split; [exact Nonempty0|]. split.
    + rewrite List. simpl. eauto.
    + rewrite Forall_app, Forall_singleton. simpl.
      destruct (allAbbreviationsSame c); simpl.
      * destruct (String.eqb a0 a) eqn:Same; simpl.
        -- apply String.eqb_eq in Same.
           split; [|reflexivity]. intros _.
           split; [apply Flag; reflexivity | congruence].
        -- apply String.eqb_neq in Same. split; [discriminate|].
           intros [_ E]. congruence.
      * split; [discriminate|]. intros [All _]. apply Flag, All.
  - destruct Inv as (Empty & Flag). rewrite Empty, Flag. simpl.
    split; [exact Nonempty|]. split; [eauto|].
    split; [|reflexivity]. intros _. apply Forall_singleton. reflexivity.
Qed.

Lemma forEach_collect_invariant
    (editor : TextEditor.t) (rootNode : Node) (syntax : string)
    (selections : list Selection.t) (c c' : Collected) (w w' : World) :
  (forall a, isAbbreviationValid syntax a = true -> a <> "") ->
  flagInvariant c ->
  forEach selections (collectAbbreviation editor rootNode syntax) c w = (Some c', w') ->
  flagInvariant c'.
Proof.
  intros ValidNonEmpty. revert c w.
  induction selections as [|selection selections IH]; intros c w Inv; simpl.
  - intros Run. injection Run as <- _. exact Inv.
  - unfold bind.
    destruct (collectAbbreviation editor rootNode syntax selection c w)
      as [[c1|] w1] eqn:Step; [|discriminate].
    apply IH.
    exact (collectAbbreviation_invariant _ _ _ _ _ _ _ _ ValidNonEmpty Inv Step).
Qed.

(** The flag [expandAbbreviation] hands to the orchestrator is set exactly
    when the requests it collected all have the same abbreviation, provided
    the helper takes no empty abbreviation for valid. *)
Lemma collected_flag_uniform
    (editor : TextEditor.t) (rootNode : Node) (syntax : string)
    (selections : list Selection.t) (c : Collected) (w w' : World) :
  (forall a, isAbbreviationValid syntax a = true -> a <> "") ->
  forEach selections (collectAbbreviation editor rootNode syntax)
          (mkCollected [] None true) w = (Some c, w') ->
  allAbbreviationsSame c = true
  <-> forall x y, x ∈ abbreviationList c -> y ∈ abbreviationList c ->
                  abbreviation x = abbreviation y.
Proof.
  intros ValidNonEmpty Run.
  assert (Inv : flagInvariant c).
  { eapply forEach_collect_invariant; [exact ValidNonEmpty| |exact Run].
    split; reflexivity. }
  unfold flagInvariant in Inv.
  destruct (firstAbbreviation c) as [a|].
  - destruct Inv as (_ & (first & rest & List & First) & Flag).
    rewrite Flag, Forall_forall. split.
    + intros All x y Hx Hy. rewrite (All x Hx), (All y Hy). reflexivity.
    + intros Same x Hx. rewrite <- First. apply Same; [exact Hx|].
      rewrite List. apply list_elem_of_here.
  - destruct Inv as (Empty & Flag). rewrite Empty, Flag.
    split; [|reflexivity]. intros _ x y Hx. inversion Hx.
Qed.

End CallerProperties.

(** ** The model at work *)

Example match_unclosed_tag_div : match_unclosed_tag "<div" = Some "div".
Proof. reflexivity. Qed.

Example match_unclosed_tag_last : match_unclosed_tag "<ul><li" = Some "li".
Proof. reflexivity. Qed.

Example match_unclosed_tag_closed : match_unclosed_tag "<div>" = None.
Proof. reflexivity. Qed.

Example match_unclosed_tag_attribute : match_unclosed_tag "<div class" = None.
Proof. reflexivity. Qed.

Example replace_selected_text_once :
  replace_selected_text "<b>  $TM_SELECTED_TEXT </b> $TM_SELECTED_TEXT "
  = "<b>$TM_SELECTED_TEXT</b> $TM_SELECTED_TEXT ".
Proof. reflexivity. Qed.

(** A wrapping expansion on one line loses the white space around the
    placeholder. *)
Example singleLineWrap_span :
  singleLineWrap
    (ExpandAbbreviationInput.mk "html" "span" (Range.new4 0 0 0 3) (Some wrapText))
    ("<span>" +:+ wrapText +:+ "</span>")
  = "<span>" +:+ wrapText +:+ "</span>"
  /\ singleLineWrap
       (ExpandAbbreviationInput.mk "html" "span" (Range.new4 0 0 0 3) (Some wrapText))
       "<span> $TM_SELECTED_TEXT </span>"
     = "<span>$TM_SELECTED_TEXT</span>".
Proof. split; reflexivity. Qed.

Example getText_lines :
  TextDocument.getText (Sample.document ["one"; "two"; "three"])
    (Range.new4 0 1 2 2)
  = "ne" +:+ String "010" "two" +:+ String "010" "th".
Proof. reflexivity. Qed.

(** Two requests with different abbreviations, without the uniform flag: two
    calls of the engine and two insertions, each at one range. *)
Example differing_requests :
  let w' :=
    snd (@expandAbbreviationInRange _ Sample.engine Sample.helper Sample.vscode
           [Sample.request "div" 0 0 3; Sample.request "ul" 1 0 2] false
           (Sample.world ["div"; "ul"] [])) in
  map fst (expandCalls (events w')) = ["div"; "ul"]
  /\ insertions (events w')
     = [("<div></div>", OneRange (Range.mk (Sample.pos 0 0) (Sample.pos 0 3)));
        ("<ul></ul>", OneRange (Range.mk (Sample.pos 1 0) (Sample.pos 1 2)))].
Proof. split; reflexivity. Qed.

(** A cursor on an indented line wraps the line from its first character
    that is not white space to its end; a reversed selection wraps what it
    spans. *)
Example wrapInput_samples :
  option_map rangeToReplace
    (wrapInput (Sample.editor ["  hello"] []) "html" "div" (Sample.cursor 0 4))
  = Some (Range.mk (Sample.pos 0 2) (Sample.pos 0 7))
  /\ option_map rangeToReplace
       (wrapInput (Sample.editor ["  hello"; "  world"] []) "html" "div"
          (Selection.mk (Sample.pos 1 7) (Sample.pos 0 0)))
     = Some (Range.mk (Sample.pos 0 2) (Sample.pos 1 7)).
Proof. split; reflexivity. Qed.

(** The command [expandAbbreviation] on the line [<div] with the cursor at
    its end: one call of the engine for [div] and one insertion over columns
    0 to 4. *)
Example expandAbbreviation_unclosed_tag :
  let run :=
    @expandAbbreviation _ Sample.engine Sample.helper Sample.util Sample.vscode None
      (Sample.world ["<div"] [Sample.cursor 0 4]) in
  fst run = Some (Some (Resolves true))
  /\ map fst (expandCalls (events (snd run))) = ["div"]
  /\ insertions (events (snd run))
     = [("<div></div>", Ranges [Range.mk (Sample.pos 0 0) (Sample.pos 0 4)])].
Proof. repeat split; reflexivity. Qed.

(** The command [wrapWithAbbreviation] with the abbreviation [div] on the
    line of four spaces and [abc], columns 0 to 2 selected: the snippet
    replaces columns 2 to 4. *)
Example wrapWithAbbreviation_space_beyond_selection :
  let run :=
    @wrapWithAbbreviation _ Sample.engine Sample.helper Sample.util Sample.vscode
      (Some (Args.mk None None (Some "div")))
      (Sample.world ["    abc"] [Selection.mk (Sample.pos 0 0) (Sample.pos 0 2)]) in
  fst run = Some (Some (Resolves (Some true)))
  /\ map snd (insertions (events (snd run)))
     = [Ranges [Range.mk (Sample.pos 0 2) (Sample.pos 0 4)]].
Proof. repeat split; reflexivity. Qed.

(** * Further properties *)

(** ** Resolving the syntax *)

Section SyntaxProperties.

Context `{Engine} `{!EmmetHelper} `{!Util} `{!Vscode}.

(** With an active editor [getSyntaxFromArgs] shows nothing and changes
    nothing: it returns the mode of the requested language, through the
    mapping, when there is one, and the mode of the parent otherwise. *)
Lemma getSyntaxFromArgs_active (args : option Args.t) (w : World)
    (editor : TextEditor.t) :
  activeTextEditor w = Some editor ->
  getSyntaxFromArgs args w
  = (Some
       (let excluded := default [] (exlcudeLanguages emmetConfig) in
        let syntax :=
          getEmmetMode
            (mappedOrSelf getMappingForIncludedLanguages
               (Some (requestedLanguage args editor))) excluded in
        if truthy_opt syntax then syntax
        else getEmmetMode
               (mappedOrSelf getMappingForIncludedLanguages
                  (match args with Some a => Args.parentMode a | None => None end))
               excluded),
     w).
Proof.
  intros Active. unfold getSyntaxFromArgs, getActiveTextEditor, bind, requestedLanguage.
  rewrite Active. cbv zeta.
  destruct (truthy_opt (getEmmetMode _ _)); reflexivity.
Qed.

Lemma getSyntaxFromArgs_inactive (args : option Args.t) (w : World) :
  activeTextEditor w = None ->
  getSyntaxFromArgs args w
  = (Some None,
     mkWorld None (events w ++ [ShowInformationMessage "No editor is active."])).
Proof.
  intros Inactive.
  unfold getSyntaxFromArgs, getActiveTextEditor, bind, showInformationMessage, emit, ret.
  rewrite Inactive. cbv beta iota. rewrite Inactive. reflexivity.
Qed.

(** X1: without an active editor both commands show the notice that no
    editor is active, once, and return no value; they call neither the
    engine nor the editor. *)
Theorem X1_no_active_editor (args : option Args.t) (w : World) :
  activeTextEditor w = None ->
  expandAbbreviation args w
  = (Some None,
     mkWorld None (events w ++ [ShowInformationMessage "No editor is active."]))
  /\ wrapWithAbbreviation args w
     = (Some None,
        mkWorld None (events w ++ [ShowInformationMessage "No editor is active."])).
Proof.
  intros Inactive. split.
  - unfold expandAbbreviation, bind.
    rewrite (getSyntaxFromArgs_inactive args w Inactive). reflexivity.
  - unfold wrapWithAbbreviation, bind.
    rewrite (getSyntaxFromArgs_inactive args w Inactive). reflexivity.
Qed.

(** X2: when the requested language resolves to no mode and the arguments
    name a parent mode that the mapping of included languages sends to a
    mode, the syntax is what the lookup of modes gives for that mapped mode;
    nothing is shown and nothing changes. *)
Theorem X2_parent_mode_fallback (args : Args.t) (w : World)
    (editor : TextEditor.t) (parent mode : string) :
  activeTextEditor w = Some editor ->
  truthy_opt
    (getEmmetMode
       (mappedOrSelf getMappingForIncludedLanguages
          (Some (requestedLanguage (Some args) editor)))
       (default [] (exlcudeLanguages emmetConfig))) = false ->
  Args.parentMode args = Some parent ->
  getMappingForIncludedLanguages !! parent = Some mode ->
  mode <> "" ->
  getSyntaxFromArgs (Some args) w
  = (Some (getEmmetMode (Some mode) (default [] (exlcudeLanguages emmetConfig))), w).
Proof.
  intros Active Unresolved Parent Mapped Nonempty.
  rewrite (getSyntaxFromArgs_active (Some args) w editor Active). cbv zeta.
  rewrite Unresolved, Parent.
  unfold mappedOrSelf. simpl default. rewrite Mapped.
  rewrite (truthy_string_nonempty _ Nonempty). reflexivity.
Qed.

(** X3: the language of the arguments wins over the language of the
    document: two editors whose documents differ only in their language
    resolve to the same syntax when the arguments carry a language that is
    not empty. *)
Theorem X3_explicit_language (args : Args.t) (language : string)
    (w1 w2 : World) (editor1 editor2 : TextEditor.t) :
  activeTextEditor w1 = Some editor1 ->
  activeTextEditor w2 = Some editor2 ->
  Args.language args = Some language ->
  language <> "" ->
  fst (getSyntaxFromArgs (Some args) w1) = fst (getSyntaxFromArgs (Some args) w2).
Proof.
  intros Active1 Active2 Language Nonempty.
  rewrite (getSyntaxFromArgs_active (Some args) w1 editor1 Active1).
  rewrite (getSyntaxFromArgs_active (Some args) w2 editor2 Active2).
  unfold requestedLanguage. rewrite Language. simpl truthy_opt.
  rewrite (truthy_string_nonempty _ Nonempty). reflexivity.
Qed.

End SyntaxProperties.

(** Without an editor, a world with no events ends with the one notice. *)
Lemma X1_no_active_editor_witness :
  @expandAbbreviation _ Sample.engine Sample.helper Sample.util Sample.vscode None
    (mkWorld None [])
  = (Some None, mkWorld None [ShowInformationMessage "No editor is active."])
  /\ @wrapWithAbbreviation _ Sample.engine Sample.helper Sample.util Sample.vscode
       (Some (Args.mk None None (Some "div"))) (mkWorld None [])
     = (Some None, mkWorld None [ShowInformationMessage "No editor is active."]).
Proof.
  split.
  - exact (proj1 (@X1_no_active_editor _ Sample.engine Sample.helper Sample.util
                    Sample.vscode None (mkWorld None []) eq_refl)).
  - exact (proj2 (@X1_no_active_editor _ Sample.engine Sample.helper Sample.util
                    Sample.vscode (Some (Args.mk None None (Some "div")))
                    (mkWorld None []) eq_refl)).
Defined.

(** A [vue] document has no mode of its own; with the parent mode
    [vue-html], which the mapping sends to [html], the syntax is [html]. *)
Lemma X2_parent_mode_fallback_witness :
  @getSyntaxFromArgs _ Sample2.helper Sample2.util Sample2.vscode
    (Some (Args.mk None (Some "vue-html") None))
    (Sample2.world "vue" ["<template>"] [])
  = (Some (Some "html"), Sample2.world "vue" ["<template>"] []).
Proof.
  exact (@X2_parent_mode_fallback _ Sample2.helper Sample2.util Sample2.vscode
           (Args.mk None (Some "vue-html") None)
           (Sample2.world "vue" ["<template>"] [])
           (TextEditor.mk
              (TextDocument.mk "vue" ["<template>"] (String "010" EmptyString)) [])
           "vue-html" "html" eq_refl eq_refl eq_refl eq_refl ltac:(discriminate)).
Defined.

(** With the language [css] in the arguments, an [html] document and a
    [vue] document resolve alike. *)
Lemma X3_explicit_language_witness :
  fst (@getSyntaxFromArgs _ Sample2.helper Sample2.util Sample2.vscode
         (Some (Args.mk (Some "css") None None)) (Sample2.world "html" [] []))
  = fst (@getSyntaxFromArgs _ Sample2.helper Sample2.util Sample2.vscode
           (Some (Args.mk (Some "css") None None)) (Sample2.world "vue" [] [])).
Proof.
  exact (@X3_explicit_language _ Sample2.helper Sample2.util Sample2.vscode
           (Args.mk (Some "css") None None) "css"
           (Sample2.world "html" [] []) (Sample2.world "vue" [] [])
           _ _ eq_refl eq_refl eq_refl ltac:(discriminate)).
Defined.

(** ** Wrapping selections *)

(** The range of a selection does not depend on the way it was made. *)
Lemma range_symmetric (a b : Position.t) :
  Range.new a b = Range.new b a.
Proof.
  unfold Range.new.
  destruct (Position.isBefore a b) eqn:AB, (Position.isBefore b a) eqn:BA;
    try reflexivity.
  - apply isBefore_spec in AB. apply isBefore_spec in BA. lia.
  - assert (NA : ~ (Position.isBefore a b = true)) by (rewrite AB; discriminate).
    assert (NB : ~ (Position.isBefore b a = true)) by (rewrite BA; discriminate).
    rewrite isBefore_spec in NA, NB.
    destruct a as [la ca], b as [lb cb]; simpl in *.
    assert (la = lb) by lia. assert (ca = cb) by lia. subst. reflexivity.
Qed.

(** What line 34 makes of a selection is the range the selection is. *)
Lemma normalized_selection (selection : Selection.t) :
  (if Selection.isReversed selection
   then Range.new (Selection.active selection) (Selection.anchor selection)
   else Selection.range selection) = Selection.range selection.
Proof.
  destruct (Selection.isReversed selection) eqn:Reversed; [|reflexivity].
  apply reversed_range, Reversed.
Qed.

(** X4: wrapping does not depend on the direction of a selection: a
    selection made from [a] to [b] and one made from [b] to [a] give the
    same request. *)
Theorem X4_wrap_direction (editor : TextEditor.t) (syntax abbreviation : string)
    (a b : Position.t) :
  wrapInput editor syntax abbreviation (Selection.mk a b)
  = wrapInput editor syntax abbreviation (Selection.mk b a).
Proof.
  unfold wrapInput. rewrite !normalized_selection.
  unfold Selection.range. simpl.
  rewrite (range_symmetric a b). reflexivity.
Qed.

(** X5: a selection is wrapped unless its first line is outside the
    document, and then the call raises; the request carries the syntax, the
    abbreviation and the wrap text, and its range is well formed and starts
    and ends on the lines on which the selection starts and ends. *)
Theorem X5_wrap_request (editor : TextEditor.t) (syntax abbreviation : string)
    (selection : Selection.t) :
  let selected := Selection.range selection in
  let l := Position.line (Range.start selected) in
  match wrapInput editor syntax abbreviation selection with
  | None => TextDocument.lineAt (TextEditor.document editor) l = None
  | Some input =>
      is_Some (TextDocument.lineAt (TextEditor.document editor) l)
      /\ ExpandAbbreviationInput.syntax input = syntax
      /\ ExpandAbbreviationInput.abbreviation input = abbreviation
      /\ textToWrap input = Some wrapText
      /\ wellFormed (rangeToReplace input)
      /\ Position.line (Range.start (rangeToReplace input)) = l
      /\ Position.line (Range.end_ (rangeToReplace input))
         = Position.line (Range.end_ selected)
  end.
Proof.
  intros selected l. unfold wrapInput. rewrite normalized_selection.
  fold selected. 
  pose proof (wellFormed_lines selected (new_wellFormed _ _)) as Ordered.
  fold l in Ordered.
  destruct (Range.isEmpty selected) eqn:Empty.
  - fold l. destruct (TextDocument.lineAt (TextEditor.document editor) l)
      as [text|] eqn:Line; [|reflexivity].
    rewrite new4_whole_line. cbn [Range.start Range.end_ Position.line Position.character].
    rewrite Line.
    apply isEqual_spec in Empty.
    repeat split; eauto.
    + apply new_wellFormed.
    + unfold Range.new4, Range.new.
      destruct (Position.isBefore _ _); reflexivity.
    + unfold Range.new4, Range.new. rewrite <- Empty. fold l.
      destruct (Position.isBefore _ _); reflexivity.
  - fold l. destruct (TextDocument.lineAt (TextEditor.document editor) l)
      as [text|] eqn:Line; [|reflexivity].
    set (space := match match_leading_space _ with
                  | Some group => String.length group
                  | None => 0
                  end).
    clearbody space.
    assert (Lines : Range.new4 l (Position.character (Range.start selected) + space)
                      (Position.line (Range.end_ selected))
                      (Position.character (Range.end_ selected))
                    = Range.mk
                        (Position.mk l (Position.character (Range.start selected) + space))
                        (Range.end_ selected)
                    \/ (l = Position.line (Range.end_ selected)
                        /\ Range.new4 l (Position.character (Range.start selected) + space)
                             (Position.line (Range.end_ selected))
                             (Position.character (Range.end_ selected))
                           = Range.mk
                               (Range.end_ selected)
                               (Position.mk l
                                  (Position.character (Range.start selected) + space)))).
    { unfold Range.new4, Range.new. rewrite position_eta.
      destruct (Position.isBefore _ _) eqn:Before; [left; reflexivity|].
      right. split; [|reflexivity].
      assert (N : ~ (Position.isBefore
                       (Position.mk l (Position.character (Range.start selected) + space))
                       (Range.end_ selected) = true))
        by (rewrite Before; discriminate).
      rewrite isBefore_spec in N. simpl in N.
      destruct Ordered as [Lt|[Same _]]; [|exact Same].
      exfalso. apply N. left. exact Lt. }
    repeat split; eauto.
    + apply new_wellFormed.
    + destruct Lines as [->|[Same ->]]; [reflexivity|]. simpl. symmetry. exact Same.
    + destruct Lines as [->|[Same ->]]; [reflexivity|]. simpl. exact Same.
Qed.

(** X6: with an empty selection the whole line of the cursor is wrapped,
    from its first character that is not white space to its end, wherever
    on the line the cursor is. *)
Theorem X6_wrap_cursor (editor : TextEditor.t) (syntax abbreviation : string)
    (selection : Selection.t) (text : string) :
  let l := Position.line (Range.start (Selection.range selection)) in
  Selection.isEmpty selection = true ->
  TextDocument.lineAt (TextEditor.document editor) l = Some text ->
  option_map rangeToReplace (wrapInput editor syntax abbreviation selection)
  = Some (Range.mk
            (Position.mk l (String.length (takeWhile isSpaceChar text)))
            (Position.mk l (String.length text))).
Proof.
  intros l Empty Line.
  rewrite (wrapInput_cursor editor syntax abbreviation selection text Empty Line).
  reflexivity.
Qed.

(** X7: for a selection that spans several lines, the start of the range
    moves past the white space that follows it on its line and the end of
    the range is the end of the selection. *)
Theorem X7_wrap_lines (editor : TextEditor.t) (syntax abbreviation : string)
    (selection : Selection.t) (text : string) :
  let selected := Selection.range selection in
  let l := Position.line (Range.start selected) in
  TextDocument.lineAt (TextEditor.document editor) l = Some text ->
  l < Position.line (Range.end_ selected) ->
  option_map rangeToReplace (wrapInput editor syntax abbreviation selection)
  = Some (Range.mk
            (Position.mk l
               (Position.character (Range.start selected)
                + String.length
                    (takeWhile isSpaceChar
                       (substr text (Position.character (Range.start selected)) None))))
            (Range.end_ selected)).
Proof.
  intros selected l Line Lines.
  assert (Nonempty : Range.isEmpty selected = false).
  { apply not_true_is_false. intros Empty. apply isEqual_spec in Empty.
    subst l. rewrite Empty in Lines. lia. }
  pose proof (wrapInput_range editor syntax abbreviation selection text) as Wrapped.
  cbv zeta in Wrapped. fold selected in Wrapped. fold l in Wrapped.
  rewrite Nonempty in Wrapped.
  rewrite (Wrapped Line); [reflexivity|]. left. exact Lines.
Qed.

(** A cursor at column 4 of a line indented by two columns. *)
Lemma X6_wrap_cursor_witness :
  option_map rangeToReplace
    (wrapInput (Sample.editor ["  hello"] []) "html" "div" (Sample.cursor 0 4))
  = Some (Range.mk (Sample.pos 0 2) (Sample.pos 0 7)).
Proof.
  exact (X6_wrap_cursor (Sample.editor ["  hello"] []) "html" "div"
           (Sample.cursor 0 4) "  hello" eq_refl eq_refl).
Defined.

(** A selection made backwards from the end of line 1 to column 1 of line
    0, where white space follows. *)
Lemma X7_wrap_lines_witness :
  option_map rangeToReplace
    (wrapInput (Sample.editor [".  hello"; "  world"] []) "html" "div"
       (Selection.mk (Sample.pos 1 7) (Sample.pos 0 1)))
  = Some (Range.mk (Sample.pos 0 3) (Sample.pos 1 7)).
Proof.
  exact (X7_wrap_lines (Sample.editor [".  hello"; "  world"] []) "html" "div"
           (Selection.mk (Sample.pos 1 7) (Sample.pos 0 1)) ".  hello"
           eq_refl ltac:(simpl; lia)).
Defined.

(** ** Bounds on what a run does *)

Section BoundProperties.

Context `{Engine} `{!EmmetHelper} `{!Util} `{!Vscode}.

Lemma length_omap_le {A B : Type} (f : A -> option B) (l : list A) :
  length (omap f l) <= length l.
Proof.
  induction l as [|x l IH]; [reflexivity|].
  change (omap f (x :: l))
    with (match f x with Some y => y :: omap f l | None => omap f l end).
  destruct (f x); simpl length; lia.
Qed.

Lemma length_copiedRanges (l : list ExpandAbbreviationInput.t) :
  length (copiedRanges l) = length l.
Proof. unfold copiedRanges. apply length_map. Qed.

(** The uniform path: at most one call of the engine, and either no
    insertion or one insertion of a text that is not empty at one range for
    every request. *)
Lemma uniform_events (l : list ExpandAbbreviationInput.t) (w : World)
    (editor : TextEditor.t) :
  activeTextEditor w = Some editor ->
  exists new,
    events (snd (expandAbbreviationInRange l true w)) = (events w ++ new)%list
    /\ length (expandCalls new) = Nat.min 1 (length l)
    /\ inputBoxes new = []
    /\ (insertions new = []
        \/ exists text,
             text <> "" /\ l <> []
             /\ insertions new = [(text, Ranges (copiedRanges l))]).
Proof.
  intros Active. destruct l as [|first rest].
  - exists []. simpl. rewrite app_nil_r. auto.
  - assert (NoBox : inputBoxes (expandAbbrEvents first) = []).
    { unfold expandAbbrEvents. destruct (expansionOf first); reflexivity. }
    rewrite (uniform_run first rest w editor Active).
    destruct (expansionOf first) as [text|] eqn:Expansion.
    + destruct (truthy_string text) eqn:Truthy.
      * eexists. split; [reflexivity|].
        rewrite expandCalls_app, insertions_app.
        rewrite expandCalls_expandAbbrEvents, insertions_expandAbbrEvents.
        split; [reflexivity|].
        split; [unfold inputBoxes; rewrite omap_app; fold (inputBoxes (expandAbbrEvents first));
                rewrite NoBox; reflexivity|].
        right. exists text.
        split; [intros ->; discriminate Truthy|]. split; [discriminate | reflexivity].
      * eexists. split; [reflexivity|].
        rewrite expandCalls_expandAbbrEvents, insertions_expandAbbrEvents. auto.
    + eexists. split; [reflexivity|].
      rewrite expandCalls_expandAbbrEvents, insertions_expandAbbrEvents. auto.
Qed.

(** The calls and the insertions of a run of the orchestrator, counted. *)
Lemma orchestrator_events (expandAbbrList : list ExpandAbbreviationInput.t)
    (insertSameSnippet : bool) (w : World) (editor : TextEditor.t) :
  activeTextEditor w = Some editor ->
  exists new,
    events (snd (expandAbbreviationInRange expandAbbrList insertSameSnippet w))
    = (events w ++ new)%list
    /\ length (expandCalls new)
       = (if insertSameSnippet
          then Nat.min 1 (length expandAbbrList)
          else length expandAbbrList)
    /\ length (insertions new) <= length (expandCalls new).
Proof.
  intros Active. destruct insertSameSnippet.
  - destruct (uniform_events expandAbbrList w editor Active)
      as (new & Events & Calls & _ & Inserted).
    exists new. split; [exact Events|]. split; [exact Calls|].
    destruct Inserted as [->|(text & _ & Nonempty & ->)]; simpl; [lia|].
    rewrite Calls. destruct expandAbbrList as [|first rest]; [contradiction|].
    simpl. lia.
  - destruct (differing_events expandAbbrList w) as (new & Events & Calls & Inserted).
    { rewrite Active. eauto. }
    exists new. split; [exact Events|]. rewrite Calls, Inserted, length_map.
    split; [reflexivity | apply length_omap_le].
Qed.

(** X8: whatever the flag, the orchestrator calls the engine at most once
    for every request, exactly once for every request without the uniform
    flag and at most once altogether with it, and it never inserts more
    snippets than it made calls of the engine. *)
Theorem X8_orchestrator_bounds (expandAbbrList : list ExpandAbbreviationInput.t)
    (insertSameSnippet : bool) (w : World) (editor : TextEditor.t) :
  activeTextEditor w = Some editor ->
  exists new,
    events (snd (expandAbbreviationInRange expandAbbrList insertSameSnippet w))
    = (events w ++ new)%list
    /\ length (expandCalls new)
       = (if insertSameSnippet
          then Nat.min 1 (length expandAbbrList)
          else length expandAbbrList)
    /\ length (insertions new) <= length (expandCalls new).
Proof. exact (orchestrator_events expandAbbrList insertSameSnippet w editor). Qed.

End BoundProperties.

(** ** The command that wraps *)

Section WrapProperties.

Context `{Engine} `{!EmmetHelper} `{!Util} `{!Vscode}.

(** Every selection gives one request. *)
Lemma wrapInputs_length (editor : TextEditor.t) (syntax abbreviation : string)
    (selections : list Selection.t) (requests : list ExpandAbbreviationInput.t) :
  wrapInputs editor syntax abbreviation selections = Some requests ->
  length requests = length selections.
Proof.
  revert requests. induction selections as [|selection selections IH];
    intros requests; simpl.
  - intros Run. injection Run as <-. reflexivity.
  - destruct (wrapInput editor syntax abbreviation selection); [|discriminate].
    destruct (wrapInputs editor syntax abbreviation selections); [|discriminate].
    intros Run. injection Run as <-. simpl. rewrite (IH _ eq_refl). reflexivity.
Qed.

(** What follows the prompt in [wrapWithAbbreviation], from the world in
    which the answer arrives. *)
Lemma wrap_after_prompt (syntax : string) (answer : option string)
    (w : World) (editor : TextEditor.t) :
  activeTextEditor w = Some editor ->
  let abbreviation := default EmptyString answer in
  let after :=
    (if negb (truthy_string abbreviation) || trim_is_empty abbreviation
        || negb (isAbbreviationValid syntax abbreviation)
     then ret (Some (Resolves None))
     else
       current <- getActiveTextEditor ;;
       match current with
       | None => raise
       | Some current =>
           match wrapInputs current syntax abbreviation (TextEditor.selections current) with
           | None => raise
           | Some expandAbbrList =>
               r <- expandAbbreviationInRange expandAbbrList true ;;
               ret (Some (followed r))
           end
       end) w in
  exists new,
    events (snd after) = (events w ++ new)%list
    /\ length (expandCalls new) <= 1
    /\ inputBoxes new = []
    /\ (insertions new = []
        \/ exists text ranges,
             text <> "" /\ insertions new = [(text, Ranges ranges)]
             /\ length ranges = length (TextEditor.selections editor)).
Proof.
  intros Active abbreviation after. subst after.
  destruct (negb (truthy_string abbreviation) || trim_is_empty abbreviation
            || negb (isAbbreviationValid syntax abbreviation)).
  - exists []. simpl. rewrite app_nil_r. auto.
  - unfold bind, getActiveTextEditor. rewrite Active.
    destruct (wrapInputs editor syntax abbreviation (TextEditor.selections editor))
      as [requests|] eqn:Requests.
    + destruct (uniform_events requests w editor Active)
        as (new & Events & Calls & NoBox & Inserted).
      exists new.
      split.
      { destruct (expandAbbreviationInRange requests true w) as [[r|] w1];
          exact Events. }
      split; [rewrite Calls; lia|]. split; [exact NoBox|].
      destruct Inserted as [Nothing|(text & Nonempty & _ & Inserted)];
        [left; exact Nothing|].
      right. exists text, (copiedRanges requests).
      split; [exact Nonempty|]. split; [exact Inserted|].
      rewrite length_copiedRanges. eapply wrapInputs_length, Requests.
    + exists []. simpl. rewrite app_nil_r. auto.
Qed.

(** The events of a run of the command that wraps, with an active editor. *)
Lemma wrap_events (args : option Args.t) (w : World) (editor : TextEditor.t)
    (syntax : option string) :
  activeTextEditor w = Some editor ->
  getSyntaxFromArgs args w = (Some syntax, w) ->
  exists new,
    events (snd (wrapWithAbbreviation args w)) = (events w ++ new)%list
    /\ length (expandCalls new) <= 1
    /\ inputBoxes new
       = (if negb (truthy_opt syntax) || negb (validate (Some editor)) then []
          else if truthy_opt (argumentAbbreviation args) then []
               else ["Enter Abbreviation"])
    /\ (insertions new = []
        \/ exists text ranges,
             text <> "" /\ insertions new = [(text, Ranges ranges)]
             /\ length ranges = length (TextEditor.selections editor)).
Proof.
  intros Active Syntax.
  unfold wrapWithAbbreviation. unfold bind at 1. rewrite Syntax.
  unfold bind at 1. unfold getActiveTextEditor at 1. rewrite Active.
  destruct (negb (truthy_opt syntax) || negb (validate (Some editor))).
  { exists []. simpl. rewrite app_nil_r. auto. }
  assert (Prompt : forall answer pre,
    expandCalls pre = [] -> insertions pre = [] ->
    exists new,
      events (snd
        ((if negb (truthy_string (default EmptyString answer))
             || trim_is_empty (default EmptyString answer)
             || negb (isAbbreviationValid (default EmptyString syntax)
                        (default EmptyString answer))
          then ret (Some (Resolves None))
          else
            current <- getActiveTextEditor ;;
            match current with
            | None => raise
            | Some current =>
                match wrapInputs current (default EmptyString syntax)
                        (default EmptyString answer) (TextEditor.selections current) with
                | None => raise
                | Some expandAbbrList =>
                    r <- expandAbbreviationInRange expandAbbrList true ;;
                    ret (Some (followed r))
                end
            end) (mkWorld (Some editor) (events w ++ pre))))
      = (events w ++ new)%list
      /\ length (expandCalls new) <= 1
      /\ inputBoxes new = inputBoxes pre
      /\ (insertions new = []
          \/ exists text ranges,
               text <> "" /\ insertions new = [(text, Ranges ranges)]
               /\ length ranges = length (TextEditor.selections editor))).
  { intros answer pre NoCalls NoInsertions.
    destruct (wrap_after_prompt (default EmptyString syntax) answer
                (mkWorld (Some editor) (events w ++ pre)) editor eq_refl)
      as (new & Events & Calls & NoBox & Inserted).
    cbv zeta in Events. exists (pre ++ new)%list.
    split; [rewrite Events; simpl; rewrite <- app_assoc; reflexivity|].
    rewrite expandCalls_app, insertions_app, NoCalls, NoInsertions. simpl.
    split; [exact Calls|]. split; [|exact Inserted].
    unfold inputBoxes. rewrite omap_app. fold (inputBoxes new). rewrite NoBox.
    apply app_nil_r. }
  cbv zeta.
  assert (Shown : forall prompt,
    showInputBox prompt w
    = (Some (Resolves (inputBoxAnswer prompt)),
       mkWorld (Some editor) (events w ++ [ShowInputBox prompt]))).
  { intros prompt. unfold showInputBox, bind, emit, ret. simpl.
    rewrite Active. reflexivity. }
  assert (Given : forall answer : option string,
    ret (Resolves answer) w
    = (Some (Resolves answer), mkWorld (Some editor) (events w ++ []))).
  { intros answer. unfold ret. rewrite app_nil_r. destruct w; simpl in *.
    rewrite Active. reflexivity. }
  destruct args as [a|]; simpl argumentAbbreviation.
  - destruct (truthy_opt (Args.abbreviation a)).
    + unfold bind at 1. rewrite Given. apply Prompt; reflexivity.
    + unfold bind at 1. rewrite Shown. apply Prompt; reflexivity.
  - unfold bind at 1. rewrite Shown. apply Prompt; reflexivity.
Qed.

(** X9: whatever its arguments and the number of selections, the command
    that wraps calls the engine at most once, and it inserts either nothing
    or one snippet that is not empty, in a single call, at exactly one range
    for every selection. *)
Theorem X9_wrap_single_insertion (args : option Args.t) (w : World) :
  exists new,
    events (snd (wrapWithAbbreviation args w)) = (events w ++ new)%list
    /\ length (expandCalls new) <= 1
    /\ (insertions new = []
        \/ exists text ranges,
             text <> "" /\ insertions new = [(text, Ranges ranges)]
             /\ length ranges = selectionCount w).
Proof.
  destruct (activeTextEditor w) as [editor|] eqn:Active.
  2:{ unfold wrapWithAbbreviation, bind.
      rewrite (getSyntaxFromArgs_inactive args w Active). simpl.
      eexists. split; [reflexivity|]. simpl. auto. }
  unfold selectionCount. rewrite Active.
  destruct (wrap_events args w editor _ Active
              (getSyntaxFromArgs_active args w editor Active))
    as (new & Events & Calls & _ & Inserted).
  exists new. auto.
Qed.

(** X10: the command that wraps asks for the abbreviation at most once, and
    never when its arguments carry one; with an active editor, a syntax and
    no abbreviation in the arguments it asks exactly once, with the prompt
    Enter Abbreviation. *)
Theorem X10_wrap_prompt (args : option Args.t) (w : World) (editor : TextEditor.t)
    (syntax : option string) :
  activeTextEditor w = Some editor ->
  getSyntaxFromArgs args w = (Some syntax, w) ->
  exists new,
    events (snd (wrapWithAbbreviation args w)) = (events w ++ new)%list
    /\ (truthy_opt (argumentAbbreviation args) = true -> inputBoxes new = [])
    /\ (truthy_opt (argumentAbbreviation args) = false ->
        truthy_opt syntax = true -> validate (Some editor) = true ->
        inputBoxes new = ["Enter Abbreviation"])
    /\ length (inputBoxes new) <= 1.
Proof.
  intros Active Syntax.
  destruct (wrap_events args w editor syntax Active Syntax)
    as (new & Events & _ & Boxes & _).
  exists new. split; [exact Events|]. rewrite Boxes.
  split; [|split].
  - intros ->. destruct (negb _ || negb _); reflexivity.
  - intros -> -> ->. reflexivity.
  - destruct (negb _ || negb _); [simpl; lia|].
    destruct (truthy_opt (argumentAbbreviation args)); simpl; lia.
Qed.

(** X11: when the input box is dismissed, or answered with nothing but
    white space, the command that wraps resolves with no value: it has shown
    the input box and done nothing else. *)
Theorem X11_wrap_dismissed (args : option Args.t) (w : World) (editor : TextEditor.t)
    (syntax : string) :
  activeTextEditor w = Some editor ->
  getSyntaxFromArgs args w = (Some (Some syntax), w) ->
  syntax <> "" ->
  validate (Some editor) = true ->
  truthy_opt (argumentAbbreviation args) = false ->
  (inputBoxAnswer "Enter Abbreviation" = None
   \/ exists blank, inputBoxAnswer "Enter Abbreviation" = Some blank
                    /\ allChars isSpaceChar blank = true) ->
  wrapWithAbbreviation args w
  = (Some (Some (Resolves None)),
     mkWorld (Some editor) (events w ++ [ShowInputBox "Enter Abbreviation"])).
Proof.
  intros Active Syntax Nonempty Valid NoArgument Answer.
  unfold wrapWithAbbreviation. unfold bind at 1. rewrite Syntax.
  unfold bind at 1. unfold getActiveTextEditor at 1. rewrite Active, Valid.
  cbn [truthy_opt]. rewrite (truthy_string_nonempty _ Nonempty).
  cbn [negb orb default]. cbv zeta.
  assert (Shown :
    showInputBox "Enter Abbreviation" w
    = (Some (Resolves (inputBoxAnswer "Enter Abbreviation")),
       mkWorld (Some editor) (events w ++ [ShowInputBox "Enter Abbreviation"]))).
  { unfold showInputBox, bind, emit, ret. simpl. rewrite Active. reflexivity. }
  assert (Stops :
    negb (truthy_string (default EmptyString (inputBoxAnswer "Enter Abbreviation")))
    || trim_is_empty (default EmptyString (inputBoxAnswer "Enter Abbreviation"))
    || negb (isAbbreviationValid syntax
               (default EmptyString (inputBoxAnswer "Enter Abbreviation"))) = true).
  { destruct Answer as [->|(blank & -> & Blank)]; simpl.
    - reflexivity.
    - unfold trim_is_empty. rewrite Blank. rewrite orb_true_r. reflexivity. }
  destruct args as [a|]; simpl in NoArgument.
  - rewrite NoArgument. unfold bind. change (id syntax) with syntax.
    rewrite Shown. rewrite Stops. reflexivity.
  - unfold bind. change (id syntax) with syntax.
    rewrite Shown. rewrite Stops. reflexivity.
Qed.

End WrapProperties.

(** Without arguments, on an [html] document, the input box is shown
    once. *)
Lemma X10_wrap_prompt_witness :
  inputBoxes
    (events (snd (@wrapWithAbbreviation _ Sample.engine Sample.helper Sample.util
                    Sample2.answering None
                    (Sample.world ["abc"] [Sample.cursor 0 1]))))
  = ["Enter Abbreviation"].
Proof.
  destruct (@X10_wrap_prompt _ Sample.engine Sample.helper Sample.util
              Sample2.answering None (Sample.world ["abc"] [Sample.cursor 0 1])
              (Sample.editor ["abc"] [Sample.cursor 0 1]) (Some "html")
              eq_refl eq_refl) as (new & Events & _ & Asked & _).
  rewrite Events. simpl app. apply Asked; reflexivity.
Defined.

(** The input box is dismissed: the command has shown it and stops. *)
Lemma X11_wrap_dismissed_witness :
  @wrapWithAbbreviation _ Sample.engine Sample.helper Sample.util Sample.vscode None
    (Sample.world ["abc"] [Sample.cursor 0 1])
  = (Some (Some (Resolves None)),
     mkWorld (Some (Sample.editor ["abc"] [Sample.cursor 0 1]))
             [ShowInputBox "Enter Abbreviation"]).
Proof.
  exact (@X11_wrap_dismissed _ Sample.engine Sample.helper Sample.util Sample.vscode
           None (Sample.world ["abc"] [Sample.cursor 0 1])
           (Sample.editor ["abc"] [Sample.cursor 0 1]) "html"
           eq_refl eq_refl ltac:(discriminate) eq_refl eq_refl (or_introl eq_refl)).
Defined.

(** Three requests without the uniform flag, with an engine that raises on
    all but [div]: three calls of the engine and one insertion. *)
Lemma X8_orchestrator_bounds_witness :
  let new :=
    events (snd (@expandAbbreviationInRange _ Sample2.partialEngine Sample.helper
                   Sample.vscode
                   [Sample.request "ul" 0 0 2; Sample.request "div" 1 0 3;
                    Sample.request "li" 2 0 2] false
                   (Sample.world ["ul"; "div"; "li"] []))) in
  length (expandCalls new) = 3 /\ length (insertions new) <= 3.
Proof.
  destruct (@X8_orchestrator_bounds _ Sample2.partialEngine Sample.helper Sample.vscode
              [Sample.request "ul" 0 0 2; Sample.request "div" 1 0 3;
               Sample.request "li" 2 0 2] false
              (Sample.world ["ul"; "div"; "li"] [])
              (Sample.editor ["ul"; "div"; "li"] []) eq_refl)
    as (new & Events & Calls & Inserted).
  cbv zeta. rewrite Events. simpl app.
  split; [exact Calls|]. rewrite Calls in Inserted. exact Inserted.
Defined.

(** ** Collecting the requests *)

Section CollectProperties.

Context `{Engine} `{!EmmetHelper} `{!Util} `{!Vscode}.

(** The position [expandAbbreviation] works at is the later end of the
    selection. *)
Lemma position_later_end (selection : Selection.t) :
  (if Selection.isReversed selection
   then Selection.anchor selection
   else Selection.active selection) = laterEnd selection.
Proof.
  unfold laterEnd, Selection.range, Selection.isReversed, Range.new.
  destruct selection as [a b]; simpl.
  destruct (Position.isBefore b a) eqn:BA, (Position.isBefore a b) eqn:AB;
    try reflexivity.
  - apply isBefore_spec in AB. apply isBefore_spec in BA. lia.
  - assert (NA : ~ (Position.isBefore a b = true)) by (rewrite AB; discriminate).
    assert (NB : ~ (Position.isBefore b a = true)) by (rewrite BA; discriminate).
    rewrite isBefore_spec in NA, NB.
    destruct a as [la ca], b as [lb cb]; simpl in *.
    assert (la = lb) by lia. assert (ca = cb) by lia. subst. reflexivity.
Qed.

(** X12: [expandAbbreviation] treats a selection alike whichever way it was
    made: it locates and validates at the later of its two ends, and a
    selection from [a] to [b] and one from [b] to [a] give the same
    result. *)
Theorem X12_collect_direction (editor : TextEditor.t) (rootNode : Node)
    (syntax : string) (a b : Position.t) (c : Collected) (w : World) :
  collectAbbreviation editor rootNode syntax (Selection.mk a b) c w
  = collectAbbreviation editor rootNode syntax (Selection.mk b a) c w.
Proof.
  unfold collectAbbreviation. rewrite !position_later_end.
  unfold laterEnd, getAbbreviation, Selection.range. simpl.
  rewrite (range_symmetric a b). reflexivity.
Qed.

(** One selection: the editor is untouched, the only event is at most one
    notice of an invalid abbreviation, and the only request added is one
    collected from this selection; a notice and a request exclude each
    other. *)
Lemma collect_step (editor : TextEditor.t) (rootNode : Node) (syntax : string)
    (all : list Selection.t) (selection : Selection.t) (c : Collected) (w : World) :
  selection ∈ all ->
  exists k r,
    collectAbbreviation editor rootNode syntax selection c w
    = (r, mkWorld (activeTextEditor w)
            (events w ++ replicate k (ShowErrorMessage "Emmet: Invalid abbreviation")))
    /\ match r with
       | Some c' =>
           (Forall (collectedFrom editor rootNode syntax all) (abbreviationList c) ->
            Forall (collectedFrom editor rootNode syntax all) (abbreviationList c'))
           /\ length (abbreviationList c') + k <= length (abbreviationList c) + 1
           /\ k <= 1
       | None => k = 0
       end.
Proof.
  intros Member. unfold collectAbbreviation. rewrite position_later_end.
  destruct (getAbbreviation _ _ _ _ _) as [[range a]|] eqn:Located.
  2:{ exists 0, None. simpl. rewrite app_nil_r. destruct w; auto. }
  destruct (isAbbreviationValid syntax a) eqn:Valid; simpl negb; cbv iota.
  2:{ exists 1, (Some c). split; [reflexivity|]. split; [auto | lia]. }
  destruct (truthy (isValidLocationForEmmetAbbreviation _ _ _)) eqn:Location;
    simpl negb; cbv iota.
  2:{ exists 0, (Some c). simpl. rewrite app_nil_r.
      split; [destruct w; reflexivity|]. split; [auto | lia]. }
  eexists 0, (Some _). simpl replicate. rewrite app_nil_r.
  split; [destruct w; reflexivity|]. simpl abbreviationList. split.
  - intros Before. apply Forall_app. split; [exact Before|].
    apply Forall_singleton. unfold collectedFrom. simpl.
    repeat split; try assumption. exists selection. auto.
  - rewrite length_app. simpl. lia.
Qed.

(** The whole loop. *)
Lemma collect_run (editor : TextEditor.t) (rootNode : Node) (syntax : string)
    (all selections : list Selection.t) (c : Collected) (w : World) :
  (forall selection, selection ∈ selections -> selection ∈ all) ->
  exists k r,
    forEach selections (collectAbbreviation editor rootNode syntax) c w
    = (r, mkWorld (activeTextEditor w)
            (events w ++ replicate k (ShowErrorMessage "Emmet: Invalid abbreviation")))
    /\ match r with
       | Some c' =>
           (Forall (collectedFrom editor rootNode syntax all) (abbreviationList c) ->
            Forall (collectedFrom editor rootNode syntax all) (abbreviationList c'))
           /\ length (abbreviationList c') + k
              <= length (abbreviationList c) + length selections
       | None => k <= length selections
       end.
Proof.
  revert c w. induction selections as [|selection selections IH]; intros c w Sub.
  - exists 0, (Some c). simpl. rewrite app_nil_r.
    split; [destruct w; reflexivity|]. split; [auto | lia].
  - destruct (collect_step editor rootNode syntax all selection c w)
      as (k1 & r1 & Step & Facts1).
    { apply Sub. apply list_elem_of_here. }
    simpl forEach. unfold bind. rewrite Step.
    destruct r1 as [c1|].
    + destruct (IH c1
                  (mkWorld (activeTextEditor w)
                     (events w
                      ++ replicate k1 (ShowErrorMessage "Emmet: Invalid abbreviation"))))
        as (k2 & r2 & Rest & Facts2).
      { intros s Hs. apply Sub. apply list_elem_of_further, Hs. }
      exists (k1 + k2), r2. rewrite Rest. simpl.
      rewrite <- app_assoc, <- replicate_add.
      split; [reflexivity|].
      destruct Facts1 as (Keep1 & Count1 & One1).
      destruct r2 as [c2|].
      * destruct Facts2 as [Keep2 Count2]. split; [auto|]. simpl. lia.
      * simpl. lia.
    + exists k1, None. split; [reflexivity|]. subst k1. simpl. lia.
Qed.

(** X13: every request that [expandAbbreviation] hands to the orchestrator
    comes from one of the selections: it carries the syntax and no wrap
    text, its abbreviation is valid, the later end of the selection is a
    valid location, and its range and abbreviation are those the locator
    finds there; and there are at most as many requests as selections. *)
Theorem X13_collected_requests (editor : TextEditor.t) (rootNode : Node)
    (syntax : string) (selections : list Selection.t) (c : Collected) (w w' : World) :
  forEach selections (collectAbbreviation editor rootNode syntax)
          (mkCollected [] None true) w = (Some c, w') ->
  Forall (collectedFrom editor rootNode syntax selections) (abbreviationList c)
  /\ length (abbreviationList c) <= length selections.
Proof.
  intros Run.
  destruct (collect_run editor rootNode syntax selections selections
              (mkCollected [] None true) w) as (k & r & Loop & Facts); [auto|].
  rewrite Run in Loop. injection Loop as <- _.
  destruct Facts as [Keep Count]. split.
  - apply Keep. constructor.
  - simpl in Count. lia.
Qed.

(** X14: collecting the requests never touches the editor; all it shows is
    the notice of an invalid abbreviation, at most once for every selection
    that gives no request. *)
Theorem X14_collect_notices (editor : TextEditor.t) (rootNode : Node)
    (syntax : string) (selections : list Selection.t) (c : Collected) (w w' : World) :
  forEach selections (collectAbbreviation editor rootNode syntax)
          (mkCollected [] None true) w = (Some c, w') ->
  activeTextEditor w' = activeTextEditor w
  /\ exists k,
       events w'
       = (events w ++ replicate k (ShowErrorMessage "Emmet: Invalid abbreviation"))%list
       /\ length (abbreviationList c) + k <= length selections.
Proof.
  intros Run.
  destruct (collect_run editor rootNode syntax selections selections
              (mkCollected [] None true) w) as (k & r & Loop & Facts); [auto|].
  rewrite Run in Loop. injection Loop as <- ->.
  split; [reflexivity|]. exists k. split; [reflexivity|].
  destruct Facts as [_ Count]. simpl in Count. lia.
Qed.

(** X15: the flag [expandAbbreviation] hands to the orchestrator is set
    exactly when all the requests it collected have the same abbreviation,
    provided the helper takes no empty abbreviation for valid. *)
Theorem X15_uniform_flag (editor : TextEditor.t) (rootNode : Node)
    (syntax : string) (selections : list Selection.t) (c : Collected) (w w' : World) :
  (forall a, isAbbreviationValid syntax a = true -> a <> "") ->
  forEach selections (collectAbbreviation editor rootNode syntax)
          (mkCollected [] None true) w = (Some c, w') ->
  allAbbreviationsSame c = true
  <-> forall x y, x ∈ abbreviationList c -> y ∈ abbreviationList c ->
                  ExpandAbbreviationInput.abbreviation x
                  = ExpandAbbreviationInput.abbreviation y.
Proof. exact (collected_flag_uniform editor rootNode syntax selections c w w'). Qed.

End CollectProperties.

(** ** The command that expands *)

Section ExpandProperties.

Context `{Engine} `{!EmmetHelper} `{!Util} `{!Vscode}.

Lemma expandCalls_notices (k : nat) (message : string) :
  expandCalls (replicate k (ShowErrorMessage message)) = [].
Proof. induction k as [|k IH]; [reflexivity | exact IH]. Qed.

Lemma insertions_notices (k : nat) (message : string) :
  insertions (replicate k (ShowErrorMessage message)) = [].
Proof. induction k as [|k IH]; [reflexivity | exact IH]. Qed.

(** X16: whatever its arguments, [expandAbbreviation] never calls the
    engine more often than the active editor has selections, and never
    inserts more snippets than it made calls of the engine. *)
Theorem X16_expand_bounds (args : option Args.t) (w : World) :
  exists new,
    events (snd (expandAbbreviation args w)) = (events w ++ new)%list
    /\ length (expandCalls new) <= selectionCount w
    /\ length (insertions new) <= length (expandCalls new).
Proof.
  destruct (activeTextEditor w) as [editor|] eqn:Active.
  2:{ unfold expandAbbreviation, bind.
      rewrite (getSyntaxFromArgs_inactive args w Active). simpl.
      eexists. split; [reflexivity|]. simpl. lia. }
  unfold selectionCount. rewrite Active.
  pose proof (getSyntaxFromArgs_active args w editor Active) as Syntax.
  match type of Syntax with _ = (Some ?r, _) => set (syntax := r) in Syntax end.
  clearbody syntax.
  unfold expandAbbreviation. unfold bind at 1. rewrite Syntax.
  unfold bind at 1. unfold getActiveTextEditor at 1. rewrite Active.
  destruct (negb (truthy_opt syntax) || negb (validate (Some editor))).
  { exists []. simpl. rewrite app_nil_r. split; [reflexivity | lia]. }
  cbv zeta.
  destruct (parseDocument (TextEditor.document editor)) as [rootNode|].
  2:{ exists []. simpl. rewrite app_nil_r. split; [reflexivity | lia]. }
  destruct (collect_run editor rootNode (default EmptyString syntax)
              (TextEditor.selections editor) (TextEditor.selections editor)
              (mkCollected [] None true) w) as (k & r & Loop & Facts); [auto|].
  unfold bind. rewrite Loop. destruct r as [c|].
  - destruct Facts as [_ Count]. simpl in Count.
    destruct (orchestrator_events (abbreviationList c) (allAbbreviationsSame c)
                (mkWorld (activeTextEditor w)
                   (events w
                    ++ replicate k (ShowErrorMessage "Emmet: Invalid abbreviation")))
                editor Active)
      as (new & Events & Calls & Inserted).
    exists (replicate k (ShowErrorMessage "Emmet: Invalid abbreviation") ++ new)%list.
    split; [rewrite Events; simpl; rewrite <- app_assoc; reflexivity|].
    rewrite expandCalls_app, insertions_app, expandCalls_notices, insertions_notices.
    simpl. split; [|exact Inserted].
    rewrite Calls. destruct (allAbbreviationsSame c); lia.
  - eexists. split; [reflexivity|].
    rewrite expandCalls_notices, insertions_notices. simpl. lia.
Qed.

End ExpandProperties.

(** Two cursors on an [html] document, one after [<div] and one after a
    blank: the first gives a request, the second a notice. *)
Lemma X13_collected_requests_witness :
  let editor := Sample.editor ["<div"; " "] [Sample.cursor 0 4; Sample.cursor 1 1] in
  let root := EmmetNode.mkNode "root" None None None in
  match
    fst (@forEach _ _ _ (TextEditor.selections editor)
           (@collectAbbreviation _ Sample2.helper Sample2.util editor root "html")
           (mkCollected [] None true)
           (Sample.world ["<div"; " "] [Sample.cursor 0 4; Sample.cursor 1 1]))
  with
  | Some c =>
      Forall (@collectedFrom _ Sample2.helper Sample2.util editor root "html"
                (TextEditor.selections editor)) (abbreviationList c)
      /\ length (abbreviationList c) <= 2
  | None => False
  end.
Proof.
  cbv zeta.
  eassert (Run :
    @forEach _ _ _ [Sample.cursor 0 4; Sample.cursor 1 1]
      (@collectAbbreviation _ Sample2.helper Sample2.util
         (Sample.editor ["<div"; " "] [Sample.cursor 0 4; Sample.cursor 1 1])
         (EmmetNode.mkNode "root" None None None) "html")
      (mkCollected [] None true)
      (Sample.world ["<div"; " "] [Sample.cursor 0 4; Sample.cursor 1 1])
    = (Some _, _)) by reflexivity.
  simpl TextEditor.selections. rewrite Run. simpl fst.
  exact (@X13_collected_requests _ Sample2.helper Sample2.util _ _ _ _ _ _ _ Run).
Defined.

(** The same two cursors: one notice, and the editor as it was. *)
Lemma X14_collect_notices_witness :
  let editor := Sample.editor ["<div"; " "] [Sample.cursor 0 4; Sample.cursor 1 1] in
  let w := Sample.world ["<div"; " "] [Sample.cursor 0 4; Sample.cursor 1 1] in
  let after :=
    snd (@forEach _ _ _ (TextEditor.selections editor)
           (@collectAbbreviation _ Sample2.helper Sample2.util editor
              (EmmetNode.mkNode "root" None None None) "html")
           (mkCollected [] None true) w) in
  activeTextEditor after = activeTextEditor w
  /\ exists k,
       events after
       = (events w ++ replicate k (ShowErrorMessage "Emmet: Invalid abbreviation"))%list
       /\ k <= 2.
Proof.
  cbv zeta.
  eassert (Run :
    @forEach _ _ _ [Sample.cursor 0 4; Sample.cursor 1 1]
      (@collectAbbreviation _ Sample2.helper Sample2.util
         (Sample.editor ["<div"; " "] [Sample.cursor 0 4; Sample.cursor 1 1])
         (EmmetNode.mkNode "root" None None None) "html")
      (mkCollected [] None true)
      (Sample.world ["<div"; " "] [Sample.cursor 0 4; Sample.cursor 1 1])
    = (Some _, _)) by reflexivity.
  simpl TextEditor.selections. rewrite Run. simpl snd.
  destruct (@X14_collect_notices _ Sample2.helper Sample2.util _ _ _ _ _ _ _ Run)
    as (Editor & k & Events & Count).
  split; [exact Editor|]. exists k. split; [exact Events|]. simpl in Count. lia.
Defined.

(** Two cursors after [<div] and one after [<ul]: the abbreviations differ
    and the flag is not set. *)
Lemma X15_uniform_flag_witness :
  let editor :=
    Sample.editor ["<div"; "<div"; "<ul"]
      [Sample.cursor 0 4; Sample.cursor 1 4; Sample.cursor 2 3] in
  match
    fst (@forEach _ _ _ (TextEditor.selections editor)
           (@collectAbbreviation _ Sample2.helper Sample2.util editor
              (EmmetNode.mkNode "root" None None None) "html")
           (mkCollected [] None true)
           (Sample.world ["<div"; "<div"; "<ul"]
              [Sample.cursor 0 4; Sample.cursor 1 4; Sample.cursor 2 3]))
  with
  | Some c =>
      allAbbreviationsSame c = false
      /\ ~ (forall x y, x ∈ abbreviationList c -> y ∈ abbreviationList c ->
                        ExpandAbbreviationInput.abbreviation x
                        = ExpandAbbreviationInput.abbreviation y)
  | None => False
  end.
Proof.
  cbv zeta.
  eassert (Run :
    @forEach _ _ _ [Sample.cursor 0 4; Sample.cursor 1 4; Sample.cursor 2 3]
      (@collectAbbreviation _ Sample2.helper Sample2.util
         (Sample.editor ["<div"; "<div"; "<ul"]
            [Sample.cursor 0 4; Sample.cursor 1 4; Sample.cursor 2 3])
         (EmmetNode.mkNode "root" None None None) "html")
      (mkCollected [] None true)
      (Sample.world ["<div"; "<div"; "<ul"]
         [Sample.cursor 0 4; Sample.cursor 1 4; Sample.cursor 2 3])
    = (Some _, _)) by reflexivity.
  simpl TextEditor.selections. rewrite Run. simpl fst.
  assert (NonEmpty : forall a,
            @isAbbreviationValid _ Sample2.helper "html" a = true -> a <> "").
  { intros a Valid ->. discriminate Valid. }
  pose proof (@X15_uniform_flag _ Sample2.helper Sample2.util _ _ _ _ _ _ _
                NonEmpty Run) as Flag.
  split; [reflexivity|]. intros Same. apply Flag in Same. discriminate Same.
Defined.

(** ** More on the orchestrator and on one expansion *)

Section ExpansionProperties.

Context `{Engine} `{!EmmetHelper} `{!Util} `{!Vscode}.

(** X17: without the uniform flag the orchestrator calls the engine once
    for every request, in the order of the list, and inserts one snippet, at
    the one range of its request, for every request whose expansion is a
    text that is not empty, in the same order. *)
Theorem X17_differing_insertions (expandAbbrList : list ExpandAbbreviationInput.t)
    (w : World) (editor : TextEditor.t) :
  activeTextEditor w = Some editor ->
  exists new,
    events (snd (expandAbbreviationInRange expandAbbrList false w))
    = (events w ++ new)%list
    /\ expandCalls new
       = map (fun input =>
                (ExpandAbbreviationInput.abbreviation input, expandOptionsOf input))
             expandAbbrList
    /\ insertions new = omap insertionOf expandAbbrList.
Proof.
  intros Active. apply differing_events. rewrite Active. eauto.
Qed.

(** The loop of the path where the snippets differ leaves the editor alone
    when no request has an insertion to make. *)
Lemma forEach_insertOne_idle (l : list ExpandAbbreviationInput.t)
    (promises : list (Thenable bool)) (w : World) :
  Forall (fun input => insertionOf input = None) l ->
  exists new,
    forEach l insertOne promises w
    = (Some promises, mkWorld (activeTextEditor w) (events w ++ new))
    /\ insertions new = [].
Proof.
  revert w. induction l as [|input l IH]; intros w Idle.
  - exists []. simpl. rewrite app_nil_r. destruct w; auto.
  - inversion Idle as [|? ? First Rest]; subst.
    assert (Step : insertOne input promises w
                   = (Some promises,
                      mkWorld (activeTextEditor w) (events w ++ expandAbbrEvents input))).
    { unfold insertOne, bind. rewrite expandAbbr_run.
      unfold insertionOf in First.
      destruct (expansionOf input) as [text|]; simpl; [|reflexivity].
      destruct (truthy_string text); [discriminate First | reflexivity]. }
    destruct (IH (mkWorld (activeTextEditor w) (events w ++ expandAbbrEvents input)) Rest)
      as (new & Run & Inserted).
    exists (expandAbbrEvents input ++ new)%list.
    simpl forEach. unfold bind. rewrite Step, Run. cbn [activeTextEditor events].
    rewrite <- app_assoc. split; [reflexivity|].
    rewrite insertions_app, insertions_expandAbbrEvents. exact Inserted.
Qed.

(** X18: when no request expands to a text that is not empty, the
    orchestrator inserts nothing and leaves the editor and its document as
    they were, with or without the uniform flag and with or without an
    active editor. *)
Theorem X18_nothing_to_insert (expandAbbrList : list ExpandAbbreviationInput.t)
    (insertSameSnippet : bool) (w : World) :
  Forall (fun input => insertionOf input = None) expandAbbrList ->
  let after := snd (expandAbbreviationInRange expandAbbrList insertSameSnippet w) in
  activeTextEditor after = activeTextEditor w
  /\ insertions (events after) = insertions (events w).
Proof.
  intros Idle. destruct expandAbbrList as [|first rest]; [split; reflexivity|].
  destruct insertSameSnippet.
  - inversion Idle as [|? ? First _]; subst.
    unfold expandAbbreviationInRange, bind. cbn [negb]. cbv beta iota zeta.
    rewrite expandAbbr_run. unfold insertionOf in First.
    assert (Falsy : truthy_opt (expansionOf first) = false).
    { destruct (expansionOf first) as [text|]; simpl; [|reflexivity].
      destruct (truthy_string text); [discriminate First | reflexivity]. }
    rewrite Falsy. unfold ret. cbn [snd activeTextEditor events].
    rewrite insertions_app, insertions_expandAbbrEvents, app_nil_r.
    split; reflexivity.
  - destruct (forEach_insertOne_idle (first :: rest) [] w Idle)
      as (new & Run & Inserted).
    unfold expandAbbreviationInRange, bind. cbn [negb]. cbv beta iota zeta.
    rewrite Run. unfold ret. cbn [snd activeTextEditor events].
    rewrite insertions_app, Inserted, app_nil_r. split; reflexivity.
Qed.

(** X19: the options of the engine are those of the helper, except that
    the entry [inlineBreak] of the profile is 1 when the request wraps a
    range of several lines; no other entry of the profile and no other
    option is changed, and nothing at all for the other requests. *)
Theorem X19_inline_break (input : ExpandAbbreviationInput.t) :
  let given :=
    getExpandOptions (syntaxProfiles emmetConfig) (variables emmetConfig)
                     (ExpandAbbreviationInput.syntax input) (textToWrap input) in
  let wrapsLines :=
    truthy_opt (textToWrap input) && negb (Range.isSingleLine (rangeToReplace input)) in
  (wrapsLines = true ->
   profile (expandOptionsOf input) !! "inlineBreak" = Some (JsNumber 1)
   /\ (forall key, key <> "inlineBreak" ->
         profile (expandOptionsOf input) !! key = profile given !! key)
   /\ others (expandOptionsOf input) = others given)
  /\ (wrapsLines = false -> expandOptionsOf input = given).
Proof.
  intros given wrapsLines. unfold expandOptionsOf. fold given. fold wrapsLines.
  split; intros ->.
  - unfold set_profile. simpl. split; [apply lookup_insert_eq|].
    split; [|reflexivity].
    intros key Other. apply lookup_insert_ne. congruence.
  - reflexivity.
Qed.

End ExpansionProperties.

(** ** The placeholder of a wrapping expansion *)






Lemma replace_selected_text_unfold (s : string) :
  replace_selected_text s
  = match match_selected_text_here s with
    | Some rest => TM_SELECTED_TEXT +:+ rest
    | None =>
        match s with
        | EmptyString => EmptyString
        | String c rest => String c (replace_selected_text rest)
        end
    end.
Proof. destruct s; reflexivity. Qed.


(** A text without a dollar sign holds no placeholder and stays as it is. *)
Lemma replace_selected_text_absent (text : string) :
  lacksChar "$" text = true -> replace_selected_text text = text.
Proof.
  induction text as [|c text IH]; intros NoDollar; [reflexivity|].
  assert (NoMatch : match_selected_text_here (String c text) = None).
  { unfold match_selected_text_here.
    assert (Head : dropWhile isSpaceChar (String c text) = ""
                   \/ exists d tail, dropWhile isSpaceChar (String c text) = String d tail
                                     /\ Ascii.eqb "$" d = false).
    { clear IH. revert NoDollar. generalize (String c text). clear.
      intros s. induction s as [|x s IH]; intros NoDollar; [left; reflexivity|].
      simpl in NoDollar. apply andb_true_iff in NoDollar as [Here NoDollar].
      apply negb_true_iff in Here. simpl. destruct (isSpaceChar x).
      - apply IH, NoDollar.
      - right. exists x, s. auto. }
    destruct Head as [->|(d & tail & -> & Other)]; [reflexivity|].
    unfold TM_SELECTED_TEXT. cbn [stripPrefix]. rewrite Other. reflexivity. }
  rewrite replace_selected_text_unfold, NoMatch.
  simpl in NoDollar. apply andb_true_iff in NoDollar as [_ NoDollar].
  rewrite (IH NoDollar). reflexivity.
Qed.


(** X21: an expansion that holds no dollar sign, and so no placeholder of
    the selected text, is returned as the engine gave it, for a request that
    wraps as for one that does not. *)
Theorem X21_no_placeholder (input : ExpandAbbreviationInput.t) (expandedText : string) :
  lacksChar "$" expandedText = true ->
  singleLineWrap input expandedText = expandedText.
Proof.
  intros NoDollar. unfold singleLineWrap.
  destruct (truthy_opt (textToWrap input) && lacksChar "010" expandedText);
    [|reflexivity].
  apply replace_selected_text_absent, NoDollar.
Qed.

(** ** The locator outside its special cases *)

(** The pattern of an unclosed tag matches exactly the texts that end with
    [<] and a word, and captures the word. *)
Lemma match_unclosed_tag_spec (s word : string) :
  match_unclosed_tag s = Some word
  <-> exists before,
        s = before +:+ String "<" word
        /\ word <> "" /\ allChars isWordChar word = true.
Proof.
  split.
  - induction s as [|c s IH]; simpl; [discriminate|].
    destruct (Ascii.eqb c "<" && truthy_string s && allChars isWordChar s) eqn:Here.
    + intros Found. injection Found as <-.
      apply andb_true_iff in Here as [Here Word].
      apply andb_true_iff in Here as [Lt Nonempty].
      apply Ascii.eqb_eq in Lt. subst c.
      exists "". split; [reflexivity|]. split; [|exact Word].
      intros ->. discriminate Nonempty.
    + intros Found. destruct (IH Found) as (before & -> & Facts).
      exists (String c before). split; [reflexivity | exact Facts].
  - intros (before & -> & Nonempty & Word).
    apply match_unclosed_tag_append; assumption.
Qed.

Section FallbackProperties.

Context `{EmmetHelper}.

(** X22: with an empty selection the locator hands over to
    [extractAbbreviation] at the position, without reading the line, when
    the syntax is not [html]; and, when it is, also when the text of the
    line before the position does not end with [<] and a word. *)
Theorem X22_locator_fallback
    (editor : TextEditor.t) (document : TextDocument.t) (selection : Selection.t)
    (position : Position.t) :
  Selection.isEmpty selection = true ->
  getAbbreviation editor document selection position false
  = Some (extractAbbreviation (TextEditor.document editor) position)
  /\ (forall currentLine,
        TextDocument.lineAt (TextEditor.document editor) (Position.line position)
        = Some currentLine ->
        ~ (exists before word,
             substr currentLine 0 (Some (Position.character position))
             = before +:+ String "<" word
             /\ word <> "" /\ allChars isWordChar word = true) ->
        getAbbreviation editor document selection position true
        = Some (extractAbbreviation (TextEditor.document editor) position)).
Proof.
  intros Empty. unfold Selection.isEmpty in Empty. unfold getAbbreviation.
  rewrite Empty. simpl negb. cbv iota. split; [reflexivity|].
  intros currentLine Line NoTag. rewrite Line.
  destruct (match_unclosed_tag _) as [word|] eqn:Found; [|reflexivity].
  exfalso. apply NoTag. apply match_unclosed_tag_spec in Found.
  destruct Found as (before & Text & Facts). exists before, word. auto.
Qed.

(** X23: in the syntax [html], with an empty selection, the locator raises
    exactly when the line of the position is outside the document. *)
Theorem X23_locator_raises
    (editor : TextEditor.t) (document : TextDocument.t) (selection : Selection.t)
    (position : Position.t) :
  Selection.isEmpty selection = true ->
  getAbbreviation editor document selection position true = None
  <-> TextDocument.lineAt (TextEditor.document editor) (Position.line position) = None.
Proof.
  intros Empty. unfold Selection.isEmpty in Empty. unfold getAbbreviation.
  rewrite Empty. simpl negb. cbv iota.
  destruct (TextDocument.lineAt _ _) as [currentLine|] eqn:Line.
  2:{ split; reflexivity. }
  split; [|discriminate].
  destruct (match_unclosed_tag _) as [word|] eqn:Found; [|discriminate].
  apply match_unclosed_tag_spec in Found.
  destruct Found as (before & Text & Nonempty & Word).
  assert (Len : String.length before + S (String.length word)
                = Nat.min (Position.character position) (String.length currentLine)).
  { rewrite <- length_substring_0. unfold substr in Text. rewrite Text.
    rewrite length_append. reflexivity. }
  unfold Position.translate_back.
  assert (Fits : (String.length word + 1 <=? Position.character position)%nat = true)
    by (apply Nat.leb_le; lia).
  rewrite Fits. discriminate.
Qed.

End FallbackProperties.

(** ** The validator along the positions of a stylesheet *)

Section StylesheetProperties.

Context `{EmmetHelper} `{!Util}.

(** X24: in a stylesheet syntax, validity only grows along the document:
    when a node makes a position a valid location, it makes every position
    that is not before it a valid location too. *)
Theorem X24_stylesheet_monotone (currentNode : Node) (syntax : string)
    (position later : Position.t) :
  isStyleSheet syntax = true ->
  Position.isBefore later position = false ->
  truthy (isValidLocationForEmmetAbbreviation (Some currentNode) syntax position) = true ->
  truthy (isValidLocationForEmmetAbbreviation (Some currentNode) syntax later) = true.
Proof.
  intros Sheet NotBefore. unfold isValidLocationForEmmetAbbreviation. rewrite Sheet.
  destruct (negb (String.eqb (EmmetNode.type currentNode) "rule")); [auto|].
  destruct (nested_multiline_selector currentNode); [auto|].
  destruct (EmmetNode.selectorToken currentNode) as [tok|]; [|auto].
  simpl. rewrite !isAfter_spec.
  assert (N : ~ (Position.isBefore later position = true))
    by (rewrite NotBefore; discriminate).
  rewrite isBefore_spec in N. lia.
Qed.

(** X25: the validator answers with a boolean except for a rule of a
    stylesheet that has no selector token and is not excepted, where its
    answer is undefined, which the caller takes for false. *)
Theorem X25_undefined_answer (currentNode : option Node) (syntax : string)
    (position : Position.t) :
  isValidLocationForEmmetAbbreviation currentNode syntax position = Undefined
  <-> exists node,
        currentNode = Some node
        /\ isStyleSheet syntax = true
        /\ EmmetNode.type node = "rule"
        /\ EmmetNode.selectorToken node = None.
Proof.
  unfold isValidLocationForEmmetAbbreviation. split.
  - destruct currentNode as [node|]; [|discriminate].
    destruct (isStyleSheet syntax); [|destruct (EmmetNode.close node); discriminate].
    destruct (String.eqb (EmmetNode.type node) "rule") eqn:Rule; simpl;
      [|discriminate].
    destruct (nested_multiline_selector node); [discriminate|].
    destruct (EmmetNode.selectorToken node) eqn:Selector; [discriminate|].
    intros _. exists node. apply String.eqb_eq in Rule. auto.
  - intros (node & -> & -> & Rule & Selector).
    rewrite Rule. simpl.
    assert (NoException : nested_multiline_selector node = false).
    { unfold nested_multiline_selector. rewrite Selector.
      destruct (EmmetNode.parent node); [apply andb_false_r | reflexivity]. }
    rewrite NoException, Selector. reflexivity.
Qed.

End StylesheetProperties.

(** ** The further properties at work *)

(** Two requests without the uniform flag and an engine that raises on
    [ul]: two calls of the engine, in order, and the one insertion of the
    request for [div]. *)
Lemma X17_differing_insertions_witness :
  let new :=
    events (snd (@expandAbbreviationInRange _ Sample2.partialEngine Sample.helper
                   Sample.vscode
                   [Sample.request "ul" 0 0 2; Sample.request "div" 1 0 3] false
                   (Sample.world ["ul"; "div"] []))) in
  map fst (expandCalls new) = ["ul"; "div"]
  /\ insertions new
     = [("<div></div>", OneRange (Range.mk (Sample.pos 1 0) (Sample.pos 1 3)))].
Proof.
  destruct (@X17_differing_insertions _ Sample2.partialEngine Sample.helper Sample.vscode
              [Sample.request "ul" 0 0 2; Sample.request "div" 1 0 3]
              (Sample.world ["ul"; "div"] []) (Sample.editor ["ul"; "div"] []) eq_refl)
    as (new & Events & Calls & Inserted).
  cbv zeta. rewrite Events. simpl app. rewrite Calls, Inserted.
  split; reflexivity.
Defined.

(** Two requests and an engine that raises: with either flag the editor is
    as it was and nothing is inserted. *)
Lemma X18_nothing_to_insert_witness :
  let w := Sample.world ["ul"; "li"] [] in
  let requests := [Sample.request "ul" 0 0 2; Sample.request "li" 1 0 2] in
  let differ :=
    snd (@expandAbbreviationInRange _ Sample.failingEngine Sample.helper Sample.vscode
           requests false w) in
  let same :=
    snd (@expandAbbreviationInRange _ Sample.failingEngine Sample.helper Sample.vscode
           requests true w) in
  (activeTextEditor differ = activeTextEditor w /\ insertions (events differ) = [])
  /\ (activeTextEditor same = activeTextEditor w /\ insertions (events same) = []).
Proof.
  assert (Idle : Forall (fun input =>
                   @insertionOf _ Sample.failingEngine Sample.helper Sample.vscode input
                   = None)
                 [Sample.request "ul" 0 0 2; Sample.request "li" 1 0 2])
    by (repeat constructor).
  split.
  - exact (@X18_nothing_to_insert _ Sample.failingEngine Sample.helper Sample.vscode
             [Sample.request "ul" 0 0 2; Sample.request "li" 1 0 2] false
             (Sample.world ["ul"; "li"] []) Idle).
  - exact (@X18_nothing_to_insert _ Sample.failingEngine Sample.helper Sample.vscode
             [Sample.request "ul" 0 0 2; Sample.request "li" 1 0 2] true
             (Sample.world ["ul"; "li"] []) Idle).
Defined.

(** A request that wraps lines 0 to 1, with a helper whose profile has
    [inlineBreak] at 0 and [indent] at 4: [inlineBreak] becomes 1 and
    [indent] stays; for a request that wraps one line the options are those
    of the helper. *)
Lemma X19_inline_break_witness :
  let lines := ExpandAbbreviationInput.mk "html" "div" (Range.new4 0 0 1 3) (Some wrapText) in
  let line := ExpandAbbreviationInput.mk "html" "div" (Range.new4 0 0 0 3) (Some wrapText) in
  profile (@expandOptionsOf _ Sample2.helper Sample.vscode lines) !! "inlineBreak"
  = Some (JsNumber 1)
  /\ profile (@expandOptionsOf _ Sample2.helper Sample.vscode lines) !! "indent"
     = Some (JsNumber 4)
  /\ profile (@expandOptionsOf _ Sample2.helper Sample.vscode line) !! "inlineBreak"
     = Some (JsNumber 0).
Proof.
  cbv zeta.
  destruct (@X19_inline_break _ Sample2.helper Sample.vscode
              (ExpandAbbreviationInput.mk "html" "div" (Range.new4 0 0 1 3)
                 (Some wrapText))) as [Wraps _].
  destruct (Wraps eq_refl) as (Break & Others & _).
  destruct (@X19_inline_break _ Sample2.helper Sample.vscode
              (ExpandAbbreviationInput.mk "html" "div" (Range.new4 0 0 0 3)
                 (Some wrapText))) as [_ Single].
  split; [exact Break|]. split.
  - rewrite (Others "indent" ltac:(discriminate)). reflexivity.
  - rewrite (Single eq_refl). reflexivity.
Defined.



(** An expansion without a placeholder, for a request that wraps. *)
Lemma X21_no_placeholder_witness :
  singleLineWrap
    (ExpandAbbreviationInput.mk "html" "div" (Range.new4 0 0 0 3) (Some wrapText))
    "<div></div>"
  = "<div></div>".
Proof.
  exact (X21_no_placeholder
           (ExpandAbbreviationInput.mk "html" "div" (Range.new4 0 0 0 3) (Some wrapText))
           "<div></div>" eq_refl).
Defined.

(** A cursor after [div]: [extractAbbreviation] is asked, in the syntax
    [html] as in any other. *)
Lemma X22_locator_fallback_witness :
  @getAbbreviation _ Sample.helper
    (Sample.editor ["div"] [Sample.cursor 0 3]) (Sample.document ["div"])
    (Sample.cursor 0 3) (Sample.pos 0 3) false
  = Some (@extractAbbreviation _ Sample.helper (Sample.document ["div"]) (Sample.pos 0 3))
  /\ @getAbbreviation _ Sample.helper
       (Sample.editor ["div"] [Sample.cursor 0 3]) (Sample.document ["div"])
       (Sample.cursor 0 3) (Sample.pos 0 3) true
     = Some (@extractAbbreviation _ Sample.helper (Sample.document ["div"]) (Sample.pos 0 3)).
Proof.
  destruct (@X22_locator_fallback _ Sample.helper
              (Sample.editor ["div"] [Sample.cursor 0 3]) (Sample.document ["div"])
              (Sample.cursor 0 3) (Sample.pos 0 3) eq_refl) as [Other Html].
  split; [exact Other|]. apply (Html "div" eq_refl).
  intros (before & word & Text & Nonempty & Word).
  assert (Found : match_unclosed_tag "div" = Some word).
  { apply match_unclosed_tag_spec. exists before. auto. }
  discriminate Found.
Defined.

(** A position on line 5 of a document of one line. *)
Lemma X23_locator_raises_witness :
  @getAbbreviation _ Sample.helper
    (Sample.editor ["<div"] []) (Sample.document ["<div"])
    (Sample.cursor 5 0) (Sample.pos 5 0) true
  = None.
Proof.
  exact (proj2 (@X23_locator_raises _ Sample.helper
                  (Sample.editor ["<div"] []) (Sample.document ["<div"])
                  (Sample.cursor 5 0) (Sample.pos 5 0) eq_refl) eq_refl).
Defined.

(** In a rule whose selector ends at (2, 10), the position (2, 11) is
    valid, and so is the position (3, 0). *)
Lemma X24_stylesheet_monotone_witness :
  truthy (@isValidLocationForEmmetAbbreviation _ Sample.helper Sample.util
            (Some (Sample.rule None 2 0 2 10)) "css" (Sample.pos 3 0)) = true.
Proof.
  exact (@X24_stylesheet_monotone _ Sample.helper Sample.util
           (Sample.rule None 2 0 2 10) "css" (Sample.pos 2 11) (Sample.pos 3 0)
           eq_refl eq_refl eq_refl).
Defined.
